(** * node-crawler: the API command's synchronization and eviction daemons

    A shallow embedding of [cmd/crawler/api.go]: [transferNewNodes],
    [newNodeDaemon] and [dropDaemon], run against a model of the two
    SQLite stores (the crawler database, drained inside a transaction, and
    the API database, upserted and evicted), of [time.Duration] arithmetic
    and of [time.Ticker].

    Go control flow (early [return], [defer], [panic], loops that never
    exit) is kept by a small state monad [Go R A] whose results are tagged
    with how the statement finished. *)

From Stdlib Require Import ZArith List Lia Bool Sorted.
From stdpp Require Import base gmap strings list.

Local Open Scope Z_scope.

(* ===================================================================== *)
(** ** Go values: [error], [time.Duration]                               *)
(* ===================================================================== *)

(** A Go [error] value.  [ErrWrapped p e] is the result of
    [fmt.Errorf(p + ": %w", e)]; a nil error is [None : option error]. *)
Inductive error : Type :=
| ErrDriver (msg : string)
| ErrTxDone
| ErrWrapped (prefix : string) (cause : error).

Definition Errorf (prefix : string) (err : error) : error :=
  ErrWrapped prefix err.

(** [time.Duration] is an [int64] count of nanoseconds; arithmetic on it
    wraps around in two's complement. *)
Module Duration.

Definition min_int64 : Z := - 2 ^ 63.
Definition max_int64 : Z := 2 ^ 63 - 1.

Definition wrap (z : Z) : Z := (z + 2 ^ 63) mod 2 ^ 64 - 2 ^ 63.

Definition in_range (d : Z) : Prop := min_int64 <= d <= max_int64.

Definition Nanosecond : Z := 1.
Definition Microsecond : Z := 1000 * Nanosecond.
Definition Millisecond : Z := 1000 * Microsecond.
Definition Second : Z := 1000 * Millisecond.
Definition Minute : Z := 60 * Second.

(** [d * k] on [time.Duration]. *)
Definition mul (d k : Z) : Z := wrap (d * k).

End Duration.

(* ===================================================================== *)
(** ** Records and the two stores                                        *)
(* ===================================================================== *)

(** Modelled from the spec: the crawled-node row type of [pkg/crawlerdb]
    is not part of this file; the spec's PeerRecord has a unique node
    identifier, a network address, handshake metadata and a last-seen
    timestamp. *)
Record PeerRecord : Type := {
  ID : N;
  Address : string;
  ClientInfo : string;
  LastSeen : Z
}.

(** Modelled from the spec: a row of the serving store is a PeerRecord
    together with its first-seen timestamp. *)
Record ServingRecord : Type := {
  Peer : PeerRecord;
  FirstSeen : Z
}.

(** Modelled from the spec: the upsert behind [apidb.InsertCrawledNodes],
    keyed by identifier; it refreshes address, metadata and last-seen and
    preserves first-seen on a row that exists. *)
Definition upsert (db : gmap N ServingRecord) (r : PeerRecord) : gmap N ServingRecord :=
  match db !! ID r with
  | Some old => <[ID r := {| Peer := r; FirstSeen := FirstSeen old |}]> db
  | None => <[ID r := {| Peer := r; FirstSeen := LastSeen r |}]> db
  end.

Definition upsertBatch (db : gmap N ServingRecord) (nodes : list PeerRecord)
  : gmap N ServingRecord :=
  fold_left upsert nodes db.

(** Modelled from the spec: the age-based bulk delete behind
    [apidb.DropOldNodes]; a row goes when [last-seen < now - retention]. *)
Definition deleteOlderThan (now retention : Z) (db : gmap N ServingRecord)
  : gmap N ServingRecord :=
  filter (fun kv => negb (LastSeen (Peer kv.2) <? now - retention) = true) db.

(** The state both daemons act on.  [crawlerDB] holds the committed
    pending rows of the transient store, [crawlerDBTx] the rows as the open
    [*sql.Tx] sees them ([None]: no [*sql.Tx] is open, or it is done),
    [connInTx] whether the pooled connection of the crawler database is
    still inside the SQLite transaction of a COMMIT that failed, [nodeDB]
    the serving store, [clock] the nanoseconds since process start. *)
Record World : Type := {
  crawlerDB : list PeerRecord;
  crawlerDBTx : option (list PeerRecord);
  connInTx : bool;
  nodeDB : gmap N ServingRecord;
  clock : Z
}.

Definition setCrawlerDB (rows : list PeerRecord) (w : World) : World :=
  {| crawlerDB := rows; crawlerDBTx := crawlerDBTx w; connInTx := connInTx w;
     nodeDB := nodeDB w; clock := clock w |}.

Definition setCrawlerDBTx (tx : option (list PeerRecord)) (w : World) : World :=
  {| crawlerDB := crawlerDB w; crawlerDBTx := tx; connInTx := connInTx w;
     nodeDB := nodeDB w; clock := clock w |}.

Definition setConnInTx (b : bool) (w : World) : World :=
  {| crawlerDB := crawlerDB w; crawlerDBTx := crawlerDBTx w; connInTx := b;
     nodeDB := nodeDB w; clock := clock w |}.

Definition setNodeDB (db : gmap N ServingRecord) (w : World) : World :=
  {| crawlerDB := crawlerDB w; crawlerDBTx := crawlerDBTx w; connInTx := connInTx w;
     nodeDB := db; clock := clock w |}.

Definition setClock (t : Z) (w : World) : World :=
  {| crawlerDB := crawlerDB w; crawlerDBTx := crawlerDBTx w; connInTx := connInTx w;
     nodeDB := nodeDB w; clock := t |}.

(** What a daemon does, in program order. *)
Inductive Event : Type :=
| EvBegin (err : option error)
| EvReadAndDeleteUnseenNodes (res : list PeerRecord + error)
| EvInsertCrawledNodes (nodes : list PeerRecord) (err : option error)
| EvCommit (err : option error)
| EvRollback (err : option error)
| EvLogInfo (msg : string) (len : nat)
| EvLogError (msg : string) (err : error)
| EvSleep (d : Z)
| EvNewTicker (d : Z)
| EvTick (at_ : Z)
| EvDropOldNodes (now : Z) (dropTimeout : Z) (err : option error)
| EvTickerStop.

(* ===================================================================== *)
(** ** The [Go] monad: state, trace and control flow                     *)
(* ===================================================================== *)

(** How a statement of a function with result type [R] finishes. *)
Inductive Flow (R A : Type) : Type :=
| Next (a : A)        (* falls through to the next statement *)
| Return (r : R)      (* [return r] *)
| Panic (e : error)   (* [panic(e)], unwinding *)
| Parked.             (* still inside a [for] loop when the observed prefix ends *)

Arguments Next {R A} a.
Arguments Return {R A} r.
Arguments Panic {R A} e.
Arguments Parked {R A}.

Definition Go (R A : Type) : Type := World -> Flow R A * World * list Event.

Definition go_ret {R A} (a : A) : Go R A := fun w => (Next a, w, []).

Definition go_bind {R A B} (c : Go R A) (k : A -> Go R B) : Go R B :=
  fun w =>
    match c w with
    | (Next a, w1, t1) =>
        match k a w1 with
        | (fl, w2, t2) => (fl, w2, t1 ++ t2)
        end
    | (Return r, w1, t1) => (Return r, w1, t1)
    | (Panic e, w1, t1) => (Panic e, w1, t1)
    | (Parked, w1, t1) => (Parked, w1, t1)
    end.

Declare Scope go_scope.
Delimit Scope go_scope with go.
Notation "x <- c ;; k" := (go_bind c (fun x => k))
  (at level 100, c at next level, right associativity) : go_scope.
Notation "c ;;; k" := (go_bind c (fun _ => k))
  (at level 100, right associativity) : go_scope.

Definition return_ {R A} (r : R) : Go R A := fun w => (Return r, w, []).
Definition panic {R A} (e : error) : Go R A := fun w => (Panic e, w, []).
Definition parked {R A} : Go R A := fun w => (Parked, w, []).

Definition emit {R} (ev : Event) : Go R unit := fun w => (Next tt, w, [ev]).
Definition getWorld {R} : Go R World := fun w => (Next w, w, []).
Definition modify {R} (f : World -> World) : Go R unit := fun w => (Next tt, f w, []).

(** [defer d] followed by the rest of the function body: [d] runs when the
    body returns, falls off its end or panics, and not while the function
    is still running. *)
Definition defer {R A} (d : Go R unit) (body : Go R A) : Go R A :=
  fun w =>
    match body w with
    | (Parked, w1, t1) => (Parked, w1, t1)
    | (fl, w1, t1) =>
        match d w1 with
        | (_, w2, t2) => (fl, w2, t1 ++ t2)
        end
    end.

(** A call [x := f(...)]: the callee's [return r] is the caller's value. *)
Definition call {R R'} (f : Go R R) : Go R' R :=
  fun w =>
    match f w with
    | (Next r, w1, t1) => (Next r, w1, t1)
    | (Return r, w1, t1) => (Next r, w1, t1)
    | (Panic e, w1, t1) => (Panic e, w1, t1)
    | (Parked, w1, t1) => (Parked, w1, t1)
    end.

(* ===================================================================== *)
(** ** The calls [api.go] makes                                          *)
(* ===================================================================== *)

(** The errors the environment answers the fallible calls of one
    synchronization cycle with ([None]: the call succeeds).  Every such
    call is made at most once per cycle. *)
Record Faults : Type := {
  BeginErr : option error;
  ReadErr : option error;
  InsertErr : option error;
  CommitErr : option error
}.

Definition noFaults : Faults :=
  {| BeginErr := None; ReadErr := None; InsertErr := None; CommitErr := None |}.

Section Calls.
Context {R : Type}.
Local Open Scope go_scope.

(** What the SQLite driver answers a BEGIN on a connection that is
    still inside a transaction. *)
Definition errInTransaction : error :=
  ErrDriver "cannot start a transaction within a transaction".

(** What [crawlerDB.Begin()] answers: the driver's refusal when the
    pooled connection is still inside a transaction, and the error of the
    environment otherwise. *)
Definition beginAnswer (f : Faults) (w : World) : option error :=
  if connInTx w then Some errInTransaction else BeginErr f.

(** [crawlerDB.Begin()]: a transaction starts from the committed rows. *)
Definition Begin (f : Faults) : Go R (option error) :=
  w <- getWorld ;;
  match beginAnswer f w with
  | Some e => emit (EvBegin (Some e)) ;;; go_ret (Some e)
  | None =>
      modify (setCrawlerDBTx (Some (crawlerDB w))) ;;;
      emit (EvBegin None) ;;;
      go_ret None
  end.

(** [tx.Rollback()]: drops what the open transaction did; on a
    [*sql.Tx] that is already done it reaches no driver, changes nothing
    and answers [sql.ErrTxDone]. *)
Definition Rollback : Go R (option error) :=
  w <- getWorld ;;
  match crawlerDBTx w with
  | None => emit (EvRollback (Some ErrTxDone)) ;;; go_ret (Some ErrTxDone)
  | Some _ =>
      modify (setCrawlerDBTx None) ;;;
      emit (EvRollback None) ;;;
      go_ret None
  end.

(** [tx.Commit()]: makes the transaction's rows the committed ones.  The
    [*sql.Tx] is marked done before the driver is asked to commit, so it is
    done afterwards whether or not the commit went through.  A commit that
    answers an error has stored nothing, and the connection goes back to
    the pool still inside the SQLite transaction. *)
Definition Commit (f : Faults) : Go R (option error) :=
  w <- getWorld ;;
  match crawlerDBTx w with
  | None => emit (EvCommit (Some ErrTxDone)) ;;; go_ret (Some ErrTxDone)
  | Some rows =>
      match CommitErr f with
      | Some e =>
          modify (fun w => setConnInTx true (setCrawlerDBTx None w)) ;;;
          emit (EvCommit (Some e)) ;;;
          go_ret (Some e)
      | None =>
          modify (fun w => setCrawlerDBTx None (setCrawlerDB rows w)) ;;;
          emit (EvCommit None) ;;;
          go_ret None
      end
  end.

(** Modelled from the spec: [crawlerdb.ReadAndDeleteUnseenNodes] is the
    transient store's atomic "read all pending and remove" extraction; it
    acts on the rows of the open transaction.  The spec promises no order
    among the records of a batch: the order of the list is the model's
    own. *)
Definition ReadAndDeleteUnseenNodes (f : Faults) : Go R (list PeerRecord * option error) :=
  w <- getWorld ;;
  match crawlerDBTx w with
  | None =>
      emit (EvReadAndDeleteUnseenNodes (inr ErrTxDone)) ;;;
      go_ret ([], Some ErrTxDone)
  | Some rows =>
      match ReadErr f with
      | Some e =>
          emit (EvReadAndDeleteUnseenNodes (inr e)) ;;;
          go_ret ([], Some e)
      | None =>
          modify (setCrawlerDBTx (Some [])) ;;;
          emit (EvReadAndDeleteUnseenNodes (inl rows)) ;;;
          go_ret (rows, None)
      end
  end.

(** Modelled from the spec: [apidb.InsertCrawledNodes] upserts the whole
    batch into the serving store as one unit; on an error the serving
    store keeps its rows. *)
Definition InsertCrawledNodes (f : Faults) (nodes : list PeerRecord) : Go R (option error) :=
  match InsertErr f with
  | Some e => emit (EvInsertCrawledNodes nodes (Some e)) ;;; go_ret (Some e)
  | None =>
      modify (fun w => setNodeDB (upsertBatch (nodeDB w) nodes) w) ;;;
      emit (EvInsertCrawledNodes nodes None) ;;;
      go_ret None
  end.

Definition LogInfo (msg : string) (len : nat) : Go R unit := emit (EvLogInfo msg len).
Definition LogError (msg : string) (err : error) : Go R unit := emit (EvLogError msg err).

(** [time.Sleep(d)]: returns at once when [d] is zero or negative. *)
Definition Sleep (d : Z) : Go R unit :=
  emit (EvSleep d) ;;;
  modify (fun w => setClock (clock w + Z.max 0 d) w).

End Calls.

(* ===================================================================== *)
(** ** [transferNewNodes]                                                *)
(* ===================================================================== *)

Section Transfer.
Local Open Scope go_scope.

Definition transferNewNodes (f : Faults) : Go (option error) (option error) :=
  err <- Begin f ;;
  match err with
  | Some err =>
      return_ (Some (Errorf "error starting transaction to read nodes" err))
  | None =>
      defer (Rollback ;;; go_ret tt)
        (r <- ReadAndDeleteUnseenNodes f ;;
         let '(nodes, err) := r in
         match err with
         | Some err => return_ (Some (Errorf "error reading nodes" err))
         | None =>
             (if (0 <? length nodes)%nat then
                err <- InsertCrawledNodes f nodes ;;
                match err with
                | Some err => return_ (Some (Errorf "error inserting nodes" err))
                | None => LogInfo "Nodes inserted" (length nodes)
                end
              else go_ret tt) ;;;
             Commit f ;;;
             return_ None
         end)
  end.

End Transfer.

(** The batch a cycle extracts: the committed pending rows at its start. *)
Definition batch (w : World) : list PeerRecord := crawlerDB w.

(** The paths through [transferNewNodes], by what the environment answers
    and whether the batch is empty. *)
Inductive TransferPath (f : Faults) (w : World) : Type :=
| PathBeginFails (e : error) (Hb : beginAnswer f w = Some e)
| PathReadFails (e : error) (Hb : beginAnswer f w = None) (Hr : ReadErr f = Some e)
| PathEmpty (Hb : beginAnswer f w = None) (Hr : ReadErr f = None) (Hn : crawlerDB w = [])
| PathInsertFails (e : error) (Hb : beginAnswer f w = None) (Hr : ReadErr f = None)
    (Hn : crawlerDB w <> []) (Hi : InsertErr f = Some e)
| PathCommitted (Hb : beginAnswer f w = None) (Hr : ReadErr f = None)
    (Hn : crawlerDB w <> []) (Hi : InsertErr f = None) (Hc : CommitErr f = None)
| PathCommitFails (e : error) (Hb : beginAnswer f w = None) (Hr : ReadErr f = None)
    (Hn : crawlerDB w <> []) (Hi : InsertErr f = None) (Hc : CommitErr f = Some e).

(* ===================================================================== *)
(** ** [newNodeDaemon]                                                   *)
(* ===================================================================== *)

(** What the environment does around one cycle of the synchronization
    daemon: the crawling engine appends [Arrivals] to the transient store
    before the cycle, and the cycle's calls meet [CycleFaults]. *)
Record CycleEnv : Type := {
  Arrivals : list PeerRecord;
  CycleFaults : Faults
}.

Section NewNodeDaemon.
Local Open Scope go_scope.

Definition crawlerAppend {R} (rows : list PeerRecord) : Go R unit :=
  modify (fun w => setCrawlerDB (crawlerDB w ++ rows) w).

(** One pass through the body of the [for] loop, from the current
    [retryTimeout] to the next one. *)
Definition newNodeDaemon_iter (f : Faults) (retryTimeout : Z) : Go unit Z :=
  err <- call (transferNewNodes f) ;;
  match err with
  | Some err =>
      LogError "Failure in transferring new nodes" err ;;;
      Sleep retryTimeout ;;;
      go_ret (Duration.mul retryTimeout 2)
  | None =>
      let retryTimeout := Duration.Minute in
      Sleep Duration.Second ;;;
      go_ret retryTimeout
  end.

(** The loop over an observed prefix of cycles; its value is the
    [retryTimeout] the next cycle would start with. *)
Fixpoint newNodeDaemon_loop (envs : list CycleEnv) (retryTimeout : Z) : Go unit Z :=
  match envs with
  | [] => go_ret retryTimeout
  | env :: rest =>
      crawlerAppend (Arrivals env) ;;;
      retryTimeout <- newNodeDaemon_iter (CycleFaults env) retryTimeout ;;
      newNodeDaemon_loop rest retryTimeout
  end.

Definition newNodeDaemon (envs : list CycleEnv) : Go unit unit :=
  let retryTimeout := Duration.Minute in
  newNodeDaemon_loop envs retryTimeout ;;;
  parked.

End NewNodeDaemon.

(* ===================================================================== *)
(** ** [dropDaemon]                                                      *)
(* ===================================================================== *)

(** A [*time.Ticker]: its channel holds one tick; the runtime sends a tick
    every [Period] and drops the ticks that find the channel full. *)
Record Ticker : Type := {
  Period : Z;
  NextFire : Z
}.

(** What the environment does in one eviction cycle: the error
    [apidb.DropOldNodes] answers with, and the time the call takes. *)
Record TickEnv : Type := {
  DropErr : option error;
  DropElapsed : Z
}.

Section DropDaemon.
Local Open Scope go_scope.

(** [time.NewTicker(d)] panics unless [d] is positive. *)
Definition NewTicker {R} (d : Z) : Go R Ticker :=
  if d <=? 0 then panic (ErrDriver "non-positive interval for NewTicker")
  else
    w <- getWorld ;;
    emit (EvNewTicker d) ;;;
    go_ret {| Period := d; NextFire := clock w + d |}.

(** [<-ticker.C]: takes the waiting tick if the ticker fired since the
    last receive, and blocks until the next firing otherwise. *)
Definition recvTick {R} (t : Ticker) : Go R Ticker :=
  w <- getWorld ;;
  if NextFire t <=? clock w then
    emit (EvTick (clock w)) ;;;
    go_ret {| Period := Period t;
              NextFire := NextFire t + Period t * ((clock w - NextFire t) / Period t + 1) |}
  else
    modify (setClock (NextFire t)) ;;;
    emit (EvTick (NextFire t)) ;;;
    go_ret {| Period := Period t; NextFire := NextFire t + Period t |}.

Definition TickerStop {R} : Go R unit := emit EvTickerStop.

Definition DropOldNodes {R} (env : TickEnv) (dropTimeout : Z) : Go R (option error) :=
  w <- getWorld ;;
  emit (EvDropOldNodes (clock w) dropTimeout (DropErr env)) ;;;
  match DropErr env with
  | Some e =>
      modify (setClock (clock w + Z.max 0 (DropElapsed env))) ;;;
      go_ret (Some e)
  | None =>
      modify (setNodeDB (deleteOlderThan (clock w) dropTimeout (nodeDB w))) ;;;
      modify (setClock (clock w + Z.max 0 (DropElapsed env))) ;;;
      go_ret None
  end.

(** The [for] loop over an observed prefix of eviction cycles. *)
Fixpoint dropDaemon_loop (dropTimeout : Z) (envs : list TickEnv) (ticker : Ticker)
  : Go unit Ticker :=
  match envs with
  | [] => go_ret ticker
  | env :: rest =>
      ticker <- recvTick ticker ;;
      err <- DropOldNodes env dropTimeout ;;
      match err with
      | Some err => panic err
      | None => dropDaemon_loop dropTimeout rest ticker
      end
  end.

Definition dropDaemon (dropTimeout : Z) (envs : list TickEnv) : Go unit unit :=
  ticker <- NewTicker (10 * Duration.Minute) ;;
  defer TickerStop
    (dropDaemon_loop dropTimeout envs ticker ;;;
     parked).

End DropDaemon.

(* ===================================================================== *)
(** ** Observing a run                                                   *)
(* ===================================================================== *)

Definition flowOf {R A} (x : Flow R A * World * list Event) : Flow R A := x.1.1.
Definition worldOf {R A} (x : Flow R A * World * list Event) : World := x.1.2.
Definition traceOf {R A} (x : Flow R A * World * list Event) : list Event := x.2.

Definition isInsert (ev : Event) : bool :=
  match ev with EvInsertCrawledNodes _ _ => true | _ => false end.

Definition isCommit (ev : Event) : bool :=
  match ev with EvCommit _ => true | _ => false end.

Definition isDrop (ev : Event) : bool :=
  match ev with EvDropOldNodes _ _ _ => true | _ => false end.

Definition isTick (ev : Event) : bool :=
  match ev with EvTick _ => true | _ => false end.

Definition isSleep (ev : Event) : bool :=
  match ev with EvSleep _ => true | _ => false end.

(** A synchronization cycle fails when [transferNewNodes] returns a
    non-nil error. *)
Definition cycleFails (f : Faults) (w : World) : bool :=
  match flowOf (transferNewNodes f w) with
  | Return (Some _) => true
  | _ => false
  end.

(** The trace of an eviction loop whose deletes all succeed: one receive
    from the ticker and one delete per cycle, at the given times. *)
Definition evictionTrace (dropTimeout : Z) (times : list Z) : list Event :=
  flat_map (fun t => [EvTick t; EvDropOldNodes t dropTimeout None]) times.


(** The time at which a receive from the ticker returns, when it starts
    at [now], and the ticker it leaves. *)
Definition tickTime (t : Ticker) (now : Z) : Z := Z.max now (NextFire t).

Definition afterTick (t : Ticker) (now : Z) : Ticker :=
  if NextFire t <=? now then
    {| Period := Period t;
       NextFire := NextFire t + Period t * ((now - NextFire t) / Period t + 1) |}
  else
    {| Period := Period t; NextFire := NextFire t + Period t |}.

(** The retry timer after [k] consecutive failures, from the value [t]. *)
Fixpoint afterFailures (k : nat) (t : Z) : Z :=
  match k with
  | O => t
  | S k' => afterFailures k' (Duration.mul t 2)
  end.

(** Every cycle of [envs] fails, when the daemon runs them from timer
    value [t] in world [w]. *)
Fixpoint consecutiveFailures (envs : list CycleEnv) (t : Z) (w : World) : Prop :=
  match envs with
  | [] => True
  | env :: rest =>
      let w1 := setCrawlerDB (crawlerDB w ++ Arrivals env) w in
      cycleFails (CycleFaults env) w1 = true /\
      consecutiveFailures rest (Duration.mul t 2)
        (worldOf (newNodeDaemon_iter (CycleFaults env) t w1))
  end.

(* ===================================================================== *)
(** ** Sample data                                                       *)
(* ===================================================================== *)

Module Sample.

Definition peerA : PeerRecord :=
  {| ID := 1; Address := "10.0.0.1:30303"; ClientInfo := "geth"; LastSeen := 5 |}.
Definition peerB : PeerRecord :=
  {| ID := 2; Address := "10.0.0.2:30303"; ClientInfo := "erigon"; LastSeen := 6 |}.

Definition busy : error := ErrDriver "database is locked (5) (SQLITE_BUSY)".

Definition idle : World :=
  {| crawlerDB := []; crawlerDBTx := None; connInTx := false;
     nodeDB := ∅; clock := 0 |}.

Definition pending : World :=
  {| crawlerDB := [peerA; peerB]; crawlerDBTx := None; connInTx := false;
     nodeDB := ∅; clock := 0 |}.

Definition beginFails : Faults :=
  {| BeginErr := Some busy; ReadErr := None; InsertErr := None; CommitErr := None |}.
Definition insertFails : Faults :=
  {| BeginErr := None; ReadErr := None; InsertErr := Some busy; CommitErr := None |}.
Definition commitFails : Faults :=
  {| BeginErr := None; ReadErr := None; InsertErr := None; CommitErr := Some busy |}.

Definition failingCycle : CycleEnv :=
  {| Arrivals := []; CycleFaults := beginFails |}.

Definition dropOk : TickEnv := {| DropErr := None; DropElapsed := 5 |}.
Definition dropSlow : TickEnv :=
  {| DropErr := None; DropElapsed := 1300 * Duration.Second |}.
Definition dropFails : TickEnv := {| DropErr := Some busy; DropElapsed := 5 |}.

End Sample.

(* ===================================================================== *)
(** ** [startAPI]                                                        *)
(* ===================================================================== *)

(** What [os.Stat] answers: the file is there, it is not
    ([os.IsNotExist] holds of the error), or another error. *)
Inductive StatResult : Type :=
| StatFound
| StatNotExist
| StatError (e : error).

Definition IsNotExist (r : StatResult) : bool :=
  match r with StatNotExist => true | _ => false end.

(** An open [*sql.DB], named by the file it was opened on, and the
    [*enode.DB] of the discovery library. *)
Inductive DBHandle : Type := SQLiteDB (path : string).
Inductive EnodeDB : Type := EnodeDBAt (path : string).

(** The flags [startAPI] reads from its [*cli.Context]. *)
Record Context : Type := {
  crawlerDBFlag : string;
  apiDBFlag : string;
  autovacuumFlag : string;
  busyTimeoutFlag : N;
  listenAddrFlag : string;
  nodedbFlag : string;
  dropNodesTimeFlag : Z;
  apiListenAddrFlag : string;
  NetworkIdFlag : N;
  nodeURLFlag : string;
  nodekeyFlag : string;
  bootnodesFlag : list string;
  timeoutFlag : Z;
  workersFlag : N;
  SepoliaFlag : bool;
  GoerliFlag : bool
}.

(** The [crawler.Crawler] value handed to the API daemon. *)
Record Crawler : Type := {
  NetworkID : N;
  NodeURL : string;
  ListenAddr : string;
  NodeKey : string;
  Bootnodes : list string;
  Timeout : Z;
  Workers : N;
  Sepolia : bool;
  Goerli : bool;
  NodeDB : EnodeDB;
  CrawlerDB : DBHandle
}.

(** What the environment answers the calls of [startAPI] with: the two
    [openSQLiteDB] calls, in program order, [os.Stat] on the API database,
    [apidb.CreateDB] and [enode.OpenDB]. *)
Record StartEnv : Type := {
  OpenCrawlerDBErr : option error;
  StatAPIDB : StatResult;
  OpenAPIDBErr : option error;
  CreateDBErr : option error;
  OpenEnodeDBErr : option error
}.

(** What [startAPI] does, in program order. *)
Inductive StartEvent : Type :=
| SOpenSQLiteDB (path autovacuum : string) (busyTimeout : N) (err : option error)
| SStat (path : string) (res : StatResult)
| SLogInfo (msg : string)
| SCreateDB (db : DBHandle) (err : option error)
| SOpenEnodeDB (path : string) (err : option error)
| SGoNewNodeDaemon (crawlerDB nodeDB : DBHandle)
| SGoDropDaemon (db : DBHandle) (dropTimeout : Z)
| SGoAPIDaemon (address : string) (nodeDB : DBHandle) (crawler : Crawler)
| SWait.

(** The start-up code threads no state of its own: a statement yields how
    it finished and what it did. *)
Definition Start (A : Type) : Type := Flow (option error) A * list StartEvent.

Definition start_ret {A} (a : A) : Start A := (Next a, []).

Definition start_bind {A B} (c : Start A) (k : A -> Start B) : Start B :=
  match c with
  | (Next a, t1) =>
      match k a with
      | (fl, t2) => (fl, t1 ++ t2)
      end
  | (Return r, t1) => (Return r, t1)
  | (Panic e, t1) => (Panic e, t1)
  | (Parked, t1) => (Parked, t1)
  end.

Declare Scope start_scope.
Delimit Scope start_scope with start.
Notation "x <- c ;; k" := (start_bind c (fun x => k))
  (at level 100, c at next level, right associativity) : start_scope.
Notation "c ;;; k" := (start_bind c (fun _ => k))
  (at level 100, right associativity) : start_scope.

Definition start_emit (ev : StartEvent) : Start unit := (Next tt, [ev]).
Definition start_return {A} (r : option error) : Start A := (Return r, []).
Definition start_panic {A} (e : error) : Start A := (Panic e, []).

Section StartAPI.
Local Open Scope start_scope.

(** [openSQLiteDB(path, autovacuum, busyTimeout)], a function of the
    package that lives in another file: the handle on the file, or the
    error the environment answers. *)
Definition openSQLiteDB (answer : option error) (path autovacuum : string)
    (busyTimeout : N) : Start (DBHandle * option error) :=
  start_emit (SOpenSQLiteDB path autovacuum busyTimeout answer) ;;;
  start_ret (SQLiteDB path, answer).

Definition osStat (answer : StatResult) (path : string) : Start StatResult :=
  start_emit (SStat path answer) ;;; start_ret answer.

Definition CreateDB (answer : option error) (db : DBHandle) : Start (option error) :=
  start_emit (SCreateDB db answer) ;;; start_ret answer.

Definition OpenDB (answer : option error) (path : string)
  : Start (EnodeDB * option error) :=
  start_emit (SOpenEnodeDB path answer) ;;; start_ret (EnodeDBAt path, answer).

Definition startAPI (env : StartEnv) (ctx : Context) : Start unit :=
  let crawlerDBPath := crawlerDBFlag ctx in
  let apiDBPath := apiDBFlag ctx in
  let autovacuum := autovacuumFlag ctx in
  let busyTimeout := busyTimeoutFlag ctx in
  let crawlerListeningAddr := listenAddrFlag ctx in
  r <- openSQLiteDB (OpenCrawlerDBErr env) crawlerDBPath autovacuum busyTimeout ;;
  let '(crawlerDB, err) := r in
  match err with
  | Some err => start_return (Some err)
  | None =>
      st <- osStat (StatAPIDB env) apiDBPath ;;
      let shouldInit := if IsNotExist st then true else false in
      r <- openSQLiteDB (OpenAPIDBErr env) apiDBPath autovacuum busyTimeout ;;
      let '(nodeDB, err) := r in
      match err with
      | Some err => start_return (Some err)
      | None =>
          (if shouldInit then
             start_emit (SLogInfo "DB did not exist, init") ;;;
             err <- CreateDB (CreateDBErr env) nodeDB ;;
             match err with
             | Some err => start_return (Some err)
             | None => start_ret tt
             end
           else start_ret tt) ;;;
          r <- OpenDB (OpenEnodeDBErr env) (nodedbFlag ctx) ;;
          let '(enodeDB, err) := r in
          match err with
          | Some err => start_panic err
          | None =>
              let crawler :=
                {| NetworkID := NetworkIdFlag ctx;
                   NodeURL := nodeURLFlag ctx;
                   ListenAddr := crawlerListeningAddr;
                   NodeKey := nodekeyFlag ctx;
                   Bootnodes := bootnodesFlag ctx;
                   Timeout := timeoutFlag ctx;
                   Workers := workersFlag ctx;
                   Sepolia := SepoliaFlag ctx;
                   Goerli := GoerliFlag ctx;
                   NodeDB := enodeDB;
                   CrawlerDB := crawlerDB |} in
              start_emit
                (SLogInfo ("1. crawler listen address: " ++ ListenAddr crawler
                           ++ " : " ++ listenAddrFlag ctx)) ;;;
              start_emit (SGoNewNodeDaemon crawlerDB nodeDB) ;;;
              start_emit (SGoDropDaemon nodeDB (dropNodesTimeFlag ctx)) ;;;
              let apiAddress := apiListenAddrFlag ctx in
              start_emit (SGoAPIDaemon apiAddress nodeDB crawler) ;;;
              start_emit SWait ;;;
              (* [wg.Wait()] does not return while a daemon runs, and
                 [newNodeDaemon] never returns *)
              (Parked, [])
          end
      end
  end.

End StartAPI.

Definition isGo (ev : StartEvent) : bool :=
  match ev with
  | SGoNewNodeDaemon _ _ | SGoDropDaemon _ _ | SGoAPIDaemon _ _ _ => true
  | _ => false
  end.

Definition isCreateDB (ev : StartEvent) : bool :=
  match ev with SCreateDB _ _ => true | _ => false end.

(** Start-up went through: every call before the daemons succeeded. *)
Definition startsUp (env : StartEnv) : bool :=
  match OpenCrawlerDBErr env, OpenAPIDBErr env, OpenEnodeDBErr env with
  | None, None, None =>
      if IsNotExist (StatAPIDB env)
      then match CreateDBErr env with None => true | Some _ => false end
      else true
  | _, _, _ => false
  end.

(* ===================================================================== *)
(** ** Observing runs of the daemons                                     *)
(* ===================================================================== *)

(** The records handed to the serving store by the successful inserts of
    a trace, in order. *)
Definition delivered (tr : list Event) : list PeerRecord :=
  flat_map (fun ev =>
              match ev with
              | EvInsertCrawledNodes nodes None => nodes
              | _ => []
              end) tr.

(** Everything the crawling engine appends during the observed cycles. *)
Definition allArrivals (envs : list CycleEnv) : list PeerRecord :=
  flat_map Arrivals envs.


(** The first [n] firing times of a ticker of period [p] created at
    [start]. *)
Definition tickSchedule (start p : Z) (n : nat) : list Z :=
  map (fun i => start + p * (Z.of_nat i + 1)) (seq 0 n).

Definition fastDelete (p : Z) (env : TickEnv) : Prop :=
  DropErr env = None /\ DropElapsed env < p.

(** The world a cycle starts in: the crawling engine has appended the
    arrivals of [env]. *)
Definition arrive (env : CycleEnv) (w : World) : World :=
  setCrawlerDB (crawlerDB w ++ Arrivals env) w.

(** The state of [newNodeDaemon] after the cycles [pre]: its
    [retryTimeout], and the world. *)
Definition timerAfter (pre : list CycleEnv) (w0 : World) : Z :=
  match flowOf (newNodeDaemon_loop pre Duration.Minute w0) with
  | Next t => t
  | _ => Duration.Minute
  end.

Definition worldAfter (pre : list CycleEnv) (w0 : World) : World :=
  worldOf (newNodeDaemon pre w0).

(** The call of [transferNewNodes] the daemon makes in the cycle [env]
    that follows the cycles [pre]. *)
Definition nextCycle (pre : list CycleEnv) (env : CycleEnv) (w0 : World)
  : Flow (option error) (option error) * World * list Event :=
  transferNewNodes (CycleFaults env) (arrive env (worldAfter pre w0)).

(** The claim that every failed cycle of the daemon leaves the timer at
    twice its value. *)
Definition timerAlwaysDoubles : Prop :=
  forall (pre : list CycleEnv) (env : CycleEnv) (w0 : World) (e : error),
    flowOf (nextCycle pre env w0) = Return (Some e) ->
    timerAfter (pre ++ [env]) w0 = 2 * timerAfter pre w0.


(** The sleeps of [k] consecutive failures that start from the timer
    value [t]: [t], [2t], [4t], ... *)
Definition backoffSchedule (t : Z) (k : nat) : list Event :=
  map (fun i => EvSleep (t * 2 ^ Z.of_nat i)) (seq 0 k).

Module Fixtures.

Definition ctx : Context :=
  {| crawlerDBFlag := "crawler.db"; apiDBFlag := "api.db";
     autovacuumFlag := "INCREMENTAL"; busyTimeoutFlag := 3000;
     listenAddrFlag := "0.0.0.0:0"; nodedbFlag := "nodes";
     dropNodesTimeFlag := 24 * 60 * Duration.Minute;
     apiListenAddrFlag := "0.0.0.0:10000"; NetworkIdFlag := 1;
     nodeURLFlag := ""; nodekeyFlag := ""; bootnodesFlag := [];
     timeoutFlag := 5 * 60 * Duration.Second; workersFlag := 16;
     SepoliaFlag := false; GoerliFlag := false |}.

Definition freshInstall : StartEnv :=
  {| OpenCrawlerDBErr := None; StatAPIDB := StatNotExist; OpenAPIDBErr := None;
     CreateDBErr := None; OpenEnodeDBErr := None |}.

Definition crawlerDBLocked : StartEnv :=
  {| OpenCrawlerDBErr := Some Sample.busy; StatAPIDB := StatFound;
     OpenAPIDBErr := None; CreateDBErr := None; OpenEnodeDBErr := None |}.

Definition enodeDBBroken : StartEnv :=
  {| OpenCrawlerDBErr := None; StatAPIDB := StatFound; OpenAPIDBErr := None;
     CreateDBErr := None; OpenEnodeDBErr := Some (ErrDriver "leveldb: corrupted") |}.

Definition readFails : Faults :=
  {| BeginErr := None; ReadErr := Some Sample.busy; InsertErr := None;
     CommitErr := None |}.

(** A world in which peer 1 is served already, first seen at time 2, and
    pending again with a later observation. *)
Definition served : World :=
  {| crawlerDB := [Sample.peerA]; crawlerDBTx := None; connInTx := false;
     nodeDB := {[ 1%N := {| Peer := Sample.peerA; FirstSeen := 2 |} ]};
     clock := 7 |}.

Definition commitFailCycle : CycleEnv :=
  {| Arrivals := []; CycleFaults := Sample.commitFails |}.

Definition quietCycle : CycleEnv :=
  {| Arrivals := []; CycleFaults := noFaults |}.

Definition arrivalCycle : CycleEnv :=
  {| Arrivals := [Sample.peerB]; CycleFaults := Sample.insertFails |}.

End Fixtures.

(* ===================================================================== *)
(** ** [time.Duration] arithmetic                                        *)
(* ===================================================================== *)

Lemma wrap_in_range (z : Z) :
  Duration.in_range z -> Duration.wrap z = z.
Proof.
  unfold Duration.in_range, Duration.min_int64, Duration.max_int64, Duration.wrap.
  intros Hz. rewrite Z.mod_small; lia.
Qed.

Lemma wrap_range (z : Z) : Duration.in_range (Duration.wrap z).
Proof.
  unfold Duration.in_range, Duration.min_int64, Duration.max_int64, Duration.wrap.
  pose proof (Z.mod_pos_bound (z + 2 ^ 63) (2 ^ 64)). lia.
Qed.

Lemma mul2_exact (t : Z) :
  - 2 ^ 62 <= t < 2 ^ 62 -> Duration.mul t 2 = 2 * t.
Proof.
  intros Ht. unfold Duration.mul. rewrite wrap_in_range; [lia|].
  unfold Duration.in_range, Duration.min_int64, Duration.max_int64. lia.
Qed.

Lemma Minute_value : Duration.Minute = 60000000000.
Proof. reflexivity. Qed.

(* ===================================================================== *)
(** ** The serving store's upsert                                        *)
(* ===================================================================== *)

Lemma upsert_lookup_eq (db : gmap N ServingRecord) (r : PeerRecord) :
  exists s, upsert db r !! ID r = Some s /\ Peer s = r.
Proof.
  unfold upsert. destruct (db !! ID r) as [old|];
    rewrite lookup_insert_eq; eexists; split; reflexivity.
Qed.

Lemma upsert_lookup_keeps (db : gmap N ServingRecord) (r : PeerRecord) (k : N) :
  is_Some (db !! k) -> is_Some (upsert db r !! k).
Proof.
  intros Hk. unfold upsert.
  destruct (decide (ID r = k)) as [->|Hne].
  - destruct (db !! k); rewrite lookup_insert_eq; eauto.
  - destruct (db !! ID r); rewrite lookup_insert_ne; auto.
Qed.

Lemma upsertBatch_keeps (nodes : list PeerRecord) (db : gmap N ServingRecord) (k : N) :
  is_Some (db !! k) -> is_Some (upsertBatch db nodes !! k).
Proof.
  revert db. induction nodes as [|r nodes IH]; intros db Hk; simpl; [exact Hk|].
  apply IH. apply upsert_lookup_keeps. exact Hk.
Qed.

(** Every record of an upserted batch has a row under its identifier. *)
Lemma upsertBatch_covers (nodes : list PeerRecord) (db : gmap N ServingRecord) (r : PeerRecord) :
  In r nodes -> is_Some (upsertBatch db nodes !! ID r).
Proof.
  revert db. induction nodes as [|r0 nodes IH]; intros db Hin; simpl in *; [tauto|].
  destruct Hin as [->|Hin].
  - apply upsertBatch_keeps. destruct (upsert_lookup_eq db r) as [s [Hs _]].
    rewrite Hs. eauto.
  - apply IH. exact Hin.
Qed.

Lemma upsertBatch_nil (db : gmap N ServingRecord) : upsertBatch db [] = db.
Proof. reflexivity. Qed.

(* ===================================================================== *)
(** ** What [Begin] answers                                              *)
(* ===================================================================== *)

Lemma beginAnswer_None (f : Faults) (w : World) :
  beginAnswer f w = None <-> connInTx w = false /\ BeginErr f = None.
Proof.
  unfold beginAnswer. destruct (connInTx w); split;
    try discriminate; intuition discriminate.
Qed.

Lemma beginAnswer_Some (f : Faults) (w : World) (e : error) :
  beginAnswer f w = Some e <->
  (connInTx w = true /\ e = errInTransaction) \/
  (connInTx w = false /\ BeginErr f = Some e).
Proof.
  unfold beginAnswer. destruct (connInTx w); split.
  - intros H. injection H as <-. left. auto.
  - intros [[_ ->]|[H _]]; [reflexivity | discriminate H].
  - intros H. right. auto.
  - intros [[H _]|[_ H]]; [discriminate H | exact H].
Qed.

(* ===================================================================== *)
(** ** The paths through [transferNewNodes]                              *)
(* ===================================================================== *)

Section TransferPaths.
Variables (f : Faults) (w : World).

(** [Begin] fails: nothing else runs. *)
Lemma transfer_begin_fails (e : error) :
  beginAnswer f w = Some e ->
  transferNewNodes f w =
    (Return (Some (Errorf "error starting transaction to read nodes" e)),
     w,
     [EvBegin (Some e)]).
Proof.
  intros Hb. unfold transferNewNodes, Begin, go_bind, emit, go_ret, return_, getWorld.
  rewrite Hb. reflexivity.
Qed.

(** The extraction fails: the deferred rollback closes the transaction. *)
Lemma transfer_read_fails (e : error) :
  beginAnswer f w = None -> ReadErr f = Some e ->
  transferNewNodes f w =
    (Return (Some (Errorf "error reading nodes" e)),
     setCrawlerDBTx None w,
     [EvBegin None; EvReadAndDeleteUnseenNodes (inr e); EvRollback None]).
Proof.
  intros Hb Hr.
  unfold transferNewNodes, Begin, defer, ReadAndDeleteUnseenNodes, Rollback,
    go_bind, emit, go_ret, return_, getWorld, modify.
  rewrite Hb. simpl. rewrite Hr. reflexivity.
Qed.

(** The batch is empty: no insert, and the commit is attempted. *)
Lemma transfer_empty :
  beginAnswer f w = None -> ReadErr f = None -> crawlerDB w = [] ->
  transferNewNodes f w =
    (Return None,
     setConnInTx (match CommitErr f with Some _ => true | None => connInTx w end)
       (setCrawlerDBTx None w),
     [EvBegin None; EvReadAndDeleteUnseenNodes (inl []);
      EvCommit (CommitErr f); EvRollback (Some ErrTxDone)]).
Proof.
  intros Hb Hr Hn.
  unfold transferNewNodes, Begin, defer, ReadAndDeleteUnseenNodes, Commit,
    Rollback, go_bind, emit, go_ret, return_, getWorld, modify.
  rewrite Hb. simpl. rewrite Hr, Hn. simpl.
  destruct (CommitErr f); simpl;
    unfold setCrawlerDBTx, setCrawlerDB, setConnInTx; simpl;
    rewrite ?Hn; reflexivity.
Qed.

(** The insert fails: no commit, and the rollback restores the batch. *)
Lemma transfer_insert_fails (e : error) :
  beginAnswer f w = None -> ReadErr f = None -> crawlerDB w <> [] ->
  InsertErr f = Some e ->
  transferNewNodes f w =
    (Return (Some (Errorf "error inserting nodes" e)),
     setCrawlerDBTx None w,
     [EvBegin None; EvReadAndDeleteUnseenNodes (inl (crawlerDB w));
      EvInsertCrawledNodes (crawlerDB w) (Some e); EvRollback None]).
Proof.
  intros Hb Hr Hn Hi.
  unfold transferNewNodes, Begin, defer, ReadAndDeleteUnseenNodes,
    InsertCrawledNodes, Rollback, go_bind, emit, go_ret, return_, getWorld, modify.
  rewrite Hb. simpl. rewrite Hr. simpl.
  destruct (crawlerDB w) as [|r rows] eqn:Hrows; [congruence|].
  simpl. rewrite Hi. simpl. unfold setCrawlerDBTx; simpl. rewrite Hrows. reflexivity.
Qed.

(** The insert succeeds and the commit goes through. *)
Lemma transfer_committed :
  beginAnswer f w = None -> ReadErr f = None -> crawlerDB w <> [] ->
  InsertErr f = None -> CommitErr f = None ->
  transferNewNodes f w =
    (Return None,
     {| crawlerDB := []; crawlerDBTx := None; connInTx := connInTx w;
        nodeDB := upsertBatch (nodeDB w) (crawlerDB w); clock := clock w |},
     [EvBegin None; EvReadAndDeleteUnseenNodes (inl (crawlerDB w));
      EvInsertCrawledNodes (crawlerDB w) None;
      EvLogInfo "Nodes inserted" (length (crawlerDB w));
      EvCommit None; EvRollback (Some ErrTxDone)]).
Proof.
  intros Hb Hr Hn Hi Hc.
  unfold transferNewNodes, Begin, defer, ReadAndDeleteUnseenNodes,
    InsertCrawledNodes, LogInfo, Commit, Rollback, go_bind, emit, go_ret,
    return_, getWorld, modify.
  rewrite Hb. simpl. rewrite Hr. simpl.
  destruct (crawlerDB w) as [|r rows] eqn:Hrows; [congruence|].
  simpl. rewrite Hi. simpl. rewrite Hc. simpl. reflexivity.
Qed.

(** The insert succeeds and the commit answers an error: the error is
    dropped, and the transient store keeps its rows. *)
Lemma transfer_commit_fails (e : error) :
  beginAnswer f w = None -> ReadErr f = None -> crawlerDB w <> [] ->
  InsertErr f = None -> CommitErr f = Some e ->
  transferNewNodes f w =
    (Return None,
     {| crawlerDB := crawlerDB w; crawlerDBTx := None; connInTx := true;
        nodeDB := upsertBatch (nodeDB w) (crawlerDB w); clock := clock w |},
     [EvBegin None; EvReadAndDeleteUnseenNodes (inl (crawlerDB w));
      EvInsertCrawledNodes (crawlerDB w) None;
      EvLogInfo "Nodes inserted" (length (crawlerDB w));
      EvCommit (Some e); EvRollback (Some ErrTxDone)]).
Proof.
  intros Hb Hr Hn Hi Hc.
  unfold transferNewNodes, Begin, defer, ReadAndDeleteUnseenNodes,
    InsertCrawledNodes, LogInfo, Commit, Rollback, go_bind, emit, go_ret,
    return_, getWorld, modify.
  rewrite Hb. simpl. rewrite Hr. simpl.
  destruct (crawlerDB w) as [|r rows] eqn:Hrows; [congruence|].
  simpl. rewrite Hi. simpl. rewrite Hc. simpl.
  unfold setCrawlerDBTx; simpl. rewrite Hrows. reflexivity.
Qed.

End TransferPaths.

(** The paths are exhaustive. *)
Lemma transfer_path (f : Faults) (w : World) : TransferPath f w.
Proof.
  destruct (beginAnswer f w) as [e|] eqn:Hb; [exact (PathBeginFails f w e Hb)|].
  destruct (ReadErr f) as [e|] eqn:Hr; [exact (PathReadFails f w e Hb Hr)|].
  destruct (crawlerDB w) as [|r rows] eqn:Hn; [exact (PathEmpty f w Hb Hr Hn)|].
  assert (Hne : r :: rows <> []) by discriminate.
  rewrite <- Hn in Hne.
  destruct (InsertErr f) as [e|] eqn:Hi; [exact (PathInsertFails f w e Hb Hr Hne Hi)|].
  destruct (CommitErr f) as [e|] eqn:Hc.
  - exact (PathCommitFails f w e Hb Hr Hne Hi Hc).
  - exact (PathCommitted f w Hb Hr Hne Hi Hc).
Qed.

(** Rewrites [transferNewNodes f w] by the path the cycle takes. *)
Ltac transfer_cases f w :=
  destruct (transfer_path f w) as
    [e Hb | e Hb Hr | Hb Hr Hn | e Hb Hr Hn Hi | Hb Hr Hn Hi Hc | e Hb Hr Hn Hi Hc];
  [ rewrite (transfer_begin_fails f w e Hb)
  | rewrite (transfer_read_fails f w e Hb Hr)
  | rewrite (transfer_empty f w Hb Hr Hn)
  | rewrite (transfer_insert_fails f w e Hb Hr Hn Hi)
  | rewrite (transfer_committed f w Hb Hr Hn Hi Hc)
  | rewrite (transfer_commit_fails f w e Hb Hr Hn Hi Hc) ].

(** Closes or splits a goal about a position in a trace that is known
    event by event. *)
Ltac walk_trace H pre :=
  repeat (destruct pre as [|? pre]; simpl in H;
          [ try discriminate H; injection H as H; subst
          | injection H as ? H; subst ]);
  try (destruct pre; discriminate H).

Ltac split_ands := repeat match goal with |- _ /\ _ => split end.

(** Refutes the membership of an event in a trace that holds no event of
    its kind. *)
Ltac no_such_event H :=
  simpl in H; repeat (destruct H as [H|H]; [discriminate H|]); contradiction H.

(* ===================================================================== *)
(** ** Synchronization cycles                                            *)
(* ===================================================================== *)

(** [transferNewNodes] always returns: it neither panics nor loops. *)
Lemma transferNewNodes_returns (f : Faults) (w : World) :
  exists r, flowOf (transferNewNodes f w) = Return r.
Proof. transfer_cases f w; eexists; reflexivity. Qed.

(** C1.  In every synchronization cycle the extracted records are either
    all written to the serving store or none of them leaves the transient
    store.  The cycle always returns; the transient store changes only on
    the path that returns nil with the whole batch upserted, and then it is
    drained; an [EvCommit] is preceded, when the batch is not empty, by the
    successful insert of that batch; and on every error path there is no
    commit, both stores keep their rows, and a transaction that was opened
    is closed by the deferred rollback. *)
Theorem transferNewNodes_all_or_nothing (f : Faults) (w : World) :
  let run := transferNewNodes f w in
  (exists r, flowOf run = Return r) /\
  ((flowOf run = Return None /\
    nodeDB (worldOf run) = upsertBatch (nodeDB w) (batch w) /\
    forall r, In r (batch w) -> is_Some (nodeDB (worldOf run) !! ID r))
   \/ crawlerDB (worldOf run) = crawlerDB w) /\
  (crawlerDB (worldOf run) <> crawlerDB w ->
     flowOf run = Return None /\ crawlerDB (worldOf run) = [] /\
     In (EvCommit None) (traceOf run) /\
     nodeDB (worldOf run) = upsertBatch (nodeDB w) (batch w)) /\
  (forall pre post ce,
     traceOf run = pre ++ EvCommit ce :: post ->
     batch w <> [] ->
     In (EvInsertCrawledNodes (batch w) None) pre) /\
  (forall e,
     flowOf run = Return (Some e) ->
     (forall ce, ~ In (EvCommit ce) (traceOf run)) /\
     crawlerDB (worldOf run) = crawlerDB w /\
     nodeDB (worldOf run) = nodeDB w /\
     (In (EvBegin None) (traceOf run) ->
      In (EvRollback None) (traceOf run) /\ crawlerDBTx (worldOf run) = None)).
Proof.
  unfold batch. cbv zeta.
  transfer_cases f w; unfold flowOf, worldOf, traceOf; simpl;
    (split; [eauto|]); split_ands.
  - (* Begin fails *) right; reflexivity.
  - congruence.
  - intros pre post ce H _. walk_trace H pre.
  - intros e' _. split_ands; try reflexivity.
    + intros ce Hin. no_such_event Hin.
    + intros Hin. no_such_event Hin.
  - (* extraction fails *) right; reflexivity.
  - congruence.
  - intros pre post ce H _. walk_trace H pre.
  - intros e' _. split_ands; try reflexivity.
    + intros ce Hin. no_such_event Hin.
    + intros _. split; [simpl; tauto | reflexivity].
  - (* empty batch *) right; reflexivity.
  - congruence.
  - intros pre post ce H Hne. congruence.
  - intros e' H. discriminate H.
  - (* insert fails *) right; reflexivity.
  - congruence.
  - intros pre post ce H _. walk_trace H pre.
  - intros e' _. split_ands; try reflexivity.
    + intros ce Hin. no_such_event Hin.
    + intros _. split; [simpl; tauto | reflexivity].
  - (* committed *)
    left. split_ands; try reflexivity.
    intros r Hin. apply upsertBatch_covers. exact Hin.
  - intros _. split_ands; try reflexivity. simpl; tauto.
  - intros pre post ce H _. walk_trace H pre; simpl; tauto.
  - intros e' H. discriminate H.
  - (* commit fails *) right; reflexivity.
  - congruence.
  - intros pre post ce H _. walk_trace H pre; simpl; tauto.
  - intros e' H. discriminate H.
Qed.

(** C2.  A cycle in which [apidb.InsertCrawledNodes] answers an error
    returns that error, wrapped, without any commit; the deferred rollback
    runs and closes the transaction; and the transient store holds the
    batch exactly as before (nothing lost, nothing doubled), the serving
    store its rows. *)
Theorem transferNewNodes_insert_error
    (f : Faults) (w : World) (nodes : list PeerRecord) (err : error) :
  In (EvInsertCrawledNodes nodes (Some err)) (traceOf (transferNewNodes f w)) ->
  flowOf (transferNewNodes f w) = Return (Some (Errorf "error inserting nodes" err)) /\
  nodes = batch w /\
  (forall ce, ~ In (EvCommit ce) (traceOf (transferNewNodes f w))) /\
  In (EvRollback None) (traceOf (transferNewNodes f w)) /\
  crawlerDB (worldOf (transferNewNodes f w)) = crawlerDB w /\
  crawlerDBTx (worldOf (transferNewNodes f w)) = None /\
  nodeDB (worldOf (transferNewNodes f w)) = nodeDB w.
Proof.
  unfold batch.
  transfer_cases f w; unfold flowOf, worldOf, traceOf; simpl; intros Hin;
    try (no_such_event Hin).
  destruct Hin as [H|[H|[H|[H|[]]]]]; try discriminate H.
  injection H as Hnodes He. subst.
  split_ands; try reflexivity.
  - intros ce Hin. no_such_event Hin.
  - tauto.
Qed.

Lemma transferNewNodes_insert_error_witness :
  In (EvInsertCrawledNodes [Sample.peerA; Sample.peerB] (Some Sample.busy))
     (traceOf (transferNewNodes Sample.insertFails Sample.pending)) /\
  flowOf (transferNewNodes Sample.insertFails Sample.pending)
    = Return (Some (Errorf "error inserting nodes" Sample.busy)) /\
  crawlerDB (worldOf (transferNewNodes Sample.insertFails Sample.pending))
    = [Sample.peerA; Sample.peerB].
Proof.
  assert (Hin : In (EvInsertCrawledNodes [Sample.peerA; Sample.peerB] (Some Sample.busy))
                   (traceOf (transferNewNodes Sample.insertFails Sample.pending))).
  { simpl. right. right. left. reflexivity. }
  split; [exact Hin|].
  destruct (transferNewNodes_insert_error _ _ _ _ Hin) as (Hfl & _ & _ & _ & Hdb & _).
  split; [exact Hfl | exact Hdb].
Defined.



(* ===================================================================== *)
(** ** The synchronization daemon                                        *)
(* ===================================================================== *)

(** An iteration after a failed cycle: log, sleep [retryTimeout], double. *)
Lemma iter_failed (f : Faults) (t : Z) (w : World) (e : error) :
  flowOf (transferNewNodes f w) = Return (Some e) ->
  newNodeDaemon_iter f t w =
    (Next (Duration.mul t 2),
     setClock (clock (worldOf (transferNewNodes f w)) + Z.max 0 t)
       (worldOf (transferNewNodes f w)),
     traceOf (transferNewNodes f w)
       ++ [EvLogError "Failure in transferring new nodes" e; EvSleep t]).
Proof.
  unfold newNodeDaemon_iter, call, go_bind, flowOf, worldOf, traceOf.
  destruct (transferNewNodes f w) as [[fl w1] tr1]. simpl.
  intros ->. reflexivity.
Qed.

(** An iteration after a successful cycle: reset, sleep one second. *)
Lemma iter_succeeded (f : Faults) (t : Z) (w : World) :
  flowOf (transferNewNodes f w) = Return None ->
  newNodeDaemon_iter f t w =
    (Next Duration.Minute,
     setClock (clock (worldOf (transferNewNodes f w)) + 1000000000)
       (worldOf (transferNewNodes f w)),
     traceOf (transferNewNodes f w) ++ [EvSleep Duration.Second]).
Proof.
  unfold newNodeDaemon_iter, call, go_bind, flowOf, worldOf, traceOf.
  destruct (transferNewNodes f w) as [[fl w1] tr1]. simpl.
  intros ->. reflexivity.
Qed.

(** An iteration always reaches the end of the loop body. *)
Lemma iter_continues (f : Faults) (t : Z) (w : World) :
  exists t', flowOf (newNodeDaemon_iter f t w) = Next t'.
Proof.
  destruct (transferNewNodes_returns f w) as [[e|] Hr].
  - rewrite (iter_failed f t w e Hr). eexists; reflexivity.
  - rewrite (iter_succeeded f t w Hr). eexists; reflexivity.
Qed.

Lemma loop_continues (envs : list CycleEnv) :
  forall (t : Z) (w : World), exists t', flowOf (newNodeDaemon_loop envs t w) = Next t'.
Proof.
  induction envs as [|env rest IH]; intros t w; simpl.
  - eexists; reflexivity.
  - unfold go_bind, crawlerAppend, modify.
    destruct (iter_continues (CycleFaults env) t
                (setCrawlerDB (crawlerDB w ++ Arrivals env) w)) as [t1 H1].
    destruct (newNodeDaemon_iter _ _ _) as [[fl1 w1] tr1].
    unfold flowOf in H1; simpl in H1; subst fl1.
    destruct (IH t1 w1) as [t2 H2].
    destruct (newNodeDaemon_loop rest t1 w1) as [[fl2 w2] tr2].
    unfold flowOf in H2; simpl in H2; subst fl2.
    eexists; reflexivity.
Qed.

(** The daemon neither returns nor panics, whatever the cycles meet. *)
Lemma newNodeDaemon_never_exits (envs : list CycleEnv) (w : World) :
  flowOf (newNodeDaemon envs w) = Parked.
Proof.
  unfold newNodeDaemon, go_bind, parked.
  destruct (loop_continues envs Duration.Minute w) as [t H].
  destruct (newNodeDaemon_loop envs Duration.Minute w) as [[fl w1] tr1].
  unfold flowOf in H; simpl in H; subst fl. reflexivity.
Qed.

(** The daemon's first iteration runs with [retryTimeout] at one minute. *)
Lemma newNodeDaemon_first_iter (env : CycleEnv) (rest : list CycleEnv) (w : World) :
  exists later,
    traceOf (newNodeDaemon (env :: rest) w) =
      traceOf (newNodeDaemon_iter (CycleFaults env) Duration.Minute
                 (setCrawlerDB (crawlerDB w ++ Arrivals env) w))
      ++ later.
Proof.
  unfold newNodeDaemon. simpl. unfold go_bind, crawlerAppend, modify, parked.
  destruct (iter_continues (CycleFaults env) Duration.Minute
              (setCrawlerDB (crawlerDB w ++ Arrivals env) w)) as [t1 H1].
  destruct (newNodeDaemon_iter _ _ _) as [[fl1 w1] tr1].
  unfold flowOf in H1; simpl in H1; subst fl1.
  destruct (loop_continues rest t1 w1) as [t2 H2].
  destruct (newNodeDaemon_loop rest t1 w1) as [[fl2 w2] tr2].
  unfold flowOf in H2; simpl in H2; subst fl2.
  unfold traceOf; simpl. exists tr2. rewrite app_nil_r. reflexivity.
Qed.

(** [transferNewNodes] itself never sleeps. *)
Lemma transfer_no_sleep (f : Faults) (w : World) :
  List.filter isSleep (traceOf (transferNewNodes f w)) = [].
Proof. transfer_cases f w; reflexivity. Qed.

(** A cycle whose extraction yields the empty batch is a successful one. *)
Lemma transfer_empty_succeeds (f : Faults) (w : World) :
  In (EvReadAndDeleteUnseenNodes (inl [])) (traceOf (transferNewNodes f w)) ->
  flowOf (transferNewNodes f w) = Return None.
Proof.
  transfer_cases f w; unfold flowOf, traceOf; simpl; intros Hin;
    try reflexivity; try (no_such_event Hin);
    destruct Hin as [H|[H|H]]; try discriminate H; try congruence;
    no_such_event H.
Qed.

(* ===================================================================== *)
(** ** Growth of the backoff interval                                    *)
(* ===================================================================== *)

(** A cycle whose [Begin] meets an error fails, in whatever world. *)
Lemma begin_fault_fails (f : Faults) (w : World) :
  BeginErr f <> None -> cycleFails f w = true.
Proof.
  intros Hne. unfold cycleFails.
  destruct (beginAnswer f w) as [e|] eqn:Hb.
  - rewrite (transfer_begin_fails f w e Hb). reflexivity.
  - apply beginAnswer_None in Hb. tauto.
Qed.

Lemma cycleFails_inv (f : Faults) (w : World) :
  cycleFails f w = true ->
  exists e, flowOf (transferNewNodes f w) = Return (Some e).
Proof.
  unfold cycleFails. destruct (flowOf (transferNewNodes f w)) as [a|[e|]|e|];
    try discriminate. eauto.
Qed.

Lemma iter_failed_timer (f : Faults) (t : Z) (w : World) :
  cycleFails f w = true ->
  flowOf (newNodeDaemon_iter f t w) = Next (Duration.mul t 2).
Proof.
  intros Hf. destruct (cycleFails_inv f w Hf) as [e He].
  rewrite (iter_failed f t w e He). reflexivity.
Qed.

(** Doublings are exact as long as the product fits in an int64. *)
Lemma afterFailures_exact (k : nat) :
  forall t, 0 < t -> t * 2 ^ Z.of_nat k < 2 ^ 63 ->
            afterFailures k t = t * 2 ^ Z.of_nat k.
Proof.
  induction k as [|k IH]; intros t Hpos Hlt.
  - simpl. lia.
  - rewrite Nat2Z.inj_succ, Z.pow_succ_r in * by lia.
    assert (Hk : 0 < 2 ^ Z.of_nat k) by (apply Z.pow_pos_nonneg; lia).
    assert (H2 : Duration.mul t 2 = 2 * t).
    { apply mul2_exact. nia. }
    cbn [afterFailures]. rewrite H2, IH; lia.
Qed.

Lemma base_doublings (k : nat) :
  (k <= 27)%nat ->
  afterFailures k Duration.Minute = Duration.Minute * 2 ^ Z.of_nat k /\
  ((k <= 26)%nat -> 0 < Duration.Minute * 2 ^ Z.of_nat k < 2 ^ 62).
Proof.
  intros Hk.
  assert (Hpos : 0 < 2 ^ Z.of_nat k) by (apply Z.pow_pos_nonneg; lia).
  split.
  - apply afterFailures_exact; [rewrite Minute_value; lia|].
    assert (H27 : 2 ^ Z.of_nat k <= 2 ^ 27) by (apply Z.pow_le_mono_r; lia).
    rewrite Minute_value. change (2 ^ 27) with 134217728 in H27. lia.
  - intros Hk'.
    assert (H26 : 2 ^ Z.of_nat k <= 2 ^ 26) by (apply Z.pow_le_mono_r; lia).
    rewrite Minute_value. change (2 ^ 26) with 67108864 in H26. lia.
Qed.

Lemma loop_consecutive_failures (envs : list CycleEnv) :
  forall (t : Z) (w : World),
    consecutiveFailures envs t w ->
    flowOf (newNodeDaemon_loop envs t w) = Next (afterFailures (length envs) t).
Proof.
  induction envs as [|env rest IH]; intros t w Hall.
  - reflexivity.
  - destruct Hall as [Hf Hrest]. cbv zeta in Hf, Hrest.
    specialize (IH _ _ Hrest).
    pose proof (iter_failed_timer (CycleFaults env) t _ Hf) as Hit.
    cbn [newNodeDaemon_loop length afterFailures].
    unfold go_bind, crawlerAppend, modify.
    destruct (newNodeDaemon_iter (CycleFaults env) t
                (setCrawlerDB (crawlerDB w ++ Arrivals env) w)) as [[fl1 w1] tr1].
    unfold flowOf, worldOf in *. simpl in *. subst fl1.
    destruct (newNodeDaemon_loop rest (Duration.mul t 2) w1) as [[fl2 w2] tr2].
    simpl in *. rewrite IH. reflexivity.
Qed.




(* ===================================================================== *)
(** ** The eviction daemon                                               *)
(* ===================================================================== *)

Lemma afterTick_period (t : Ticker) (now : Z) :
  Period (afterTick t now) = Period t.
Proof. unfold afterTick. destruct (NextFire t <=? now); reflexivity. Qed.

(** The ticker's next firing lies after the tick just received. *)
Lemma afterTick_later (t : Ticker) (now : Z) :
  0 < Period t -> tickTime t now < NextFire (afterTick t now).
Proof.
  intros Hp. unfold afterTick, tickTime.
  destruct (Z.leb_spec (NextFire t) now) as [Hle|Hgt]; simpl.
  - pose proof (Z.mul_succ_div_gt (now - NextFire t) (Period t) Hp). lia.
  - lia.
Qed.

(** One pass through the body of the eviction loop. *)
Lemma dropLoop_step (dt : Z) (env : TickEnv) (rest : list TickEnv)
    (ticker : Ticker) (w : World) :
  dropDaemon_loop dt (env :: rest) ticker w =
    match DropErr env with
    | Some e =>
        (Panic e,
         setClock (tickTime ticker (clock w) + Z.max 0 (DropElapsed env)) w,
         [EvTick (tickTime ticker (clock w));
          EvDropOldNodes (tickTime ticker (clock w)) dt (Some e)])
    | None =>
        match dropDaemon_loop dt rest (afterTick ticker (clock w))
                (setClock (tickTime ticker (clock w) + Z.max 0 (DropElapsed env))
                   (setNodeDB
                      (deleteOlderThan (tickTime ticker (clock w)) dt (nodeDB w)) w))
        with
        | (fl, w2, tr) =>
            (fl, w2,
             [EvTick (tickTime ticker (clock w));
              EvDropOldNodes (tickTime ticker (clock w)) dt None] ++ tr)
        end
    end.
Proof.
  cbn [dropDaemon_loop].
  unfold recvTick, DropOldNodes, go_bind, getWorld, emit, modify, go_ret, panic.
  unfold afterTick, tickTime.
  destruct (Z.leb_spec (NextFire ticker) (clock w)) as [Hle|Hgt].
  - (* a tick is waiting *)
    rewrite (Z.max_l (clock w) (NextFire ticker)) by lia.
    destruct (DropErr env) as [e|]; cbn -[Z.max Z.add Z.mul Z.div deleteOlderThan].
    + reflexivity.
    + destruct (dropDaemon_loop dt rest _ _) as [[fl w2] tr]. reflexivity.
  - (* the receive blocks until the ticker fires *)
    rewrite (Z.max_r (clock w) (NextFire ticker)) by lia.
    destruct (DropErr env) as [e|]; cbn -[Z.max Z.add Z.mul Z.div deleteOlderThan].
    + reflexivity.
    + change (setClock (NextFire ticker + Z.max 0 (DropElapsed env))
                (setNodeDB (deleteOlderThan (NextFire ticker) dt (nodeDB w))
                   (setClock (NextFire ticker) w)))
        with (setClock (NextFire ticker + Z.max 0 (DropElapsed env))
                (setNodeDB (deleteOlderThan (NextFire ticker) dt (nodeDB w)) w)).
      destruct (dropDaemon_loop dt rest _ _) as [[fl w2] tr]. reflexivity.
Qed.

(** [dropDaemon] is its loop run on a fresh ten-minute ticker; the
    deferred [ticker.Stop()] runs only if the loop is left. *)
Lemma dropDaemon_unfold (dt : Z) (envs : list TickEnv) (w : World) :
  dropDaemon dt envs w =
    match dropDaemon_loop dt envs
            {| Period := 10 * Duration.Minute;
               NextFire := clock w + 10 * Duration.Minute |} w with
    | (Next _, w1, tr) => (Parked, w1, EvNewTicker (10 * Duration.Minute) :: tr)
    | (Return r, w1, tr) =>
        (Return r, w1, EvNewTicker (10 * Duration.Minute) :: tr ++ [EvTickerStop])
    | (Panic e, w1, tr) =>
        (Panic e, w1, EvNewTicker (10 * Duration.Minute) :: tr ++ [EvTickerStop])
    | (Parked, w1, tr) => (Parked, w1, EvNewTicker (10 * Duration.Minute) :: tr)
    end.
Proof.
  unfold dropDaemon, NewTicker.
  change (10 * Duration.Minute <=? 0) with false. cbv iota.
  unfold go_bind at 1 2. unfold getWorld, emit, go_ret. cbv iota beta.
  unfold defer, go_bind, parked, TickerStop, emit.
  destruct (dropDaemon_loop dt envs _ w) as [[[tk|r|e|] w1] tr]; simpl;
    rewrite ?app_nil_r; reflexivity.
Qed.

(** While the deletes succeed the loop alternates one receive and one
    delete, at strictly increasing times, none before the ticker's first
    firing. *)
Lemma dropLoop_succeeds (dt : Z) (envs : list TickEnv) :
  forall (ticker : Ticker) (w : World),
    0 < Period ticker ->
    Forall (fun env => DropErr env = None) envs ->
    exists times ticker' w',
      dropDaemon_loop dt envs ticker w = (Next ticker', w', evictionTrace dt times) /\
      length times = length envs /\
      Forall (fun t => tickTime ticker (clock w) <= t) times /\
      StronglySorted Z.lt times /\
      crawlerDB w' = crawlerDB w.
Proof.
  induction envs as [|env rest IH]; intros ticker w Hp Hok.
  - exists [], ticker, w. split_ands; try reflexivity; constructor.
  - inversion Hok as [|? ? Henv Hrest]; subst.
    pose proof (dropLoop_step dt env rest ticker w) as Hstep.
    rewrite Henv in Hstep.
    pose proof (afterTick_later ticker (clock w) Hp) as Hnext.
    set (T := tickTime ticker (clock w)) in *.
    destruct (IH (afterTick ticker (clock w))
                (setClock (T + Z.max 0 (DropElapsed env))
                   (setNodeDB (deleteOlderThan T dt (nodeDB w)) w)))
      as (times & tk2 & w2 & Hrun & Hlen & Hall & Hsort & Hdb);
      [rewrite afterTick_period; exact Hp | exact Hrest |].
    rewrite Hrun in Hstep.
    assert (Hlater : Forall (fun t => T < t) times).
    { eapply List.Forall_impl; [|exact Hall]. unfold tickTime. simpl. intros t Ht. lia. }
    exists (T :: times), tk2, w2. split_ands.
    + exact Hstep.
    + simpl. rewrite Hlen. reflexivity.
    + constructor; [lia|].
      eapply List.Forall_impl; [|exact Hlater]. simpl. intros t Ht. lia.
    + constructor; [exact Hsort | exact Hlater].
    + rewrite Hdb. reflexivity.
Qed.

(** The first delete that answers an error ends the loop with a panic:
    what the environment holds for later ticks is never consulted. *)
Lemma dropLoop_panics (dt : Z) (env : TickEnv) (e : error) :
  DropErr env = Some e ->
  forall (pre : list TickEnv) (ticker : Ticker) (w : World),
    0 < Period ticker ->
    Forall (fun env => DropErr env = None) pre ->
    exists times now w',
      length times = length pre /\
      tickTime ticker (clock w) <= now /\
      forall post,
        dropDaemon_loop dt (pre ++ env :: post) ticker w =
          (Panic e, w',
           evictionTrace dt times ++ [EvTick now; EvDropOldNodes now dt (Some e)]).
Proof.
  intros He. induction pre as [|env0 pre IH]; intros ticker w Hp Hok.
  - exists [], (tickTime ticker (clock w)),
      (setClock (tickTime ticker (clock w) + Z.max 0 (DropElapsed env)) w).
    split_ands; [reflexivity | lia |].
    intros post. simpl app. rewrite dropLoop_step, He. reflexivity.
  - inversion Hok as [|? ? Henv Hrest]; subst.
    pose proof (afterTick_later ticker (clock w) Hp) as Hnext.
    set (T := tickTime ticker (clock w)) in *.
    destruct (IH (afterTick ticker (clock w))
                (setClock (T + Z.max 0 (DropElapsed env0))
                   (setNodeDB (deleteOlderThan T dt (nodeDB w)) w)))
      as (times & now & w2 & Hlen & Hnow & Hrun);
      [rewrite afterTick_period; exact Hp | exact Hrest |].
    exists (T :: times), now, w2. split_ands.
    + simpl. rewrite Hlen. reflexivity.
    + unfold tickTime in Hnow. simpl in Hnow. lia.
    + intros post. rewrite <- app_comm_cons, dropLoop_step, Henv.
      fold T. rewrite Hrun. reflexivity.
Qed.

(** No delete is issued before the ticker's first firing. *)
Lemma dropLoop_no_early_delete (dt : Z) (envs : list TickEnv) :
  forall (ticker : Ticker) (w : World) (now d : Z) (err : option error),
    0 < Period ticker ->
    In (EvDropOldNodes now d err) (traceOf (dropDaemon_loop dt envs ticker w)) ->
    tickTime ticker (clock w) <= now.
Proof.
  induction envs as [|env rest IH]; intros ticker w now d err Hp Hin.
  - simpl in Hin. contradiction.
  - rewrite dropLoop_step in Hin.
    pose proof (afterTick_later ticker (clock w) Hp) as Hnext.
    destruct (DropErr env) as [e|].
    + unfold traceOf in Hin. simpl in Hin.
      destruct Hin as [H|[H|[]]]; [discriminate H|].
      injection H as <- _ _. lia.
    + specialize (IH (afterTick ticker (clock w))
                    (setClock (tickTime ticker (clock w) + Z.max 0 (DropElapsed env))
                       (setNodeDB
                          (deleteOlderThan (tickTime ticker (clock w)) dt (nodeDB w)) w))
                    now d err).
      destruct (dropDaemon_loop dt rest _ _) as [[fl w2] tr].
      unfold traceOf in Hin, IH. simpl in Hin, IH.
      destruct Hin as [H|[H|Hin]]; [discriminate H | injection H as <- _ _; lia |].
      rewrite afterTick_period in IH. specialize (IH Hp Hin).
      unfold tickTime in IH at 1. simpl in IH. unfold tickTime in Hnext at 1. lia.
Qed.

Lemma evictionTrace_counts (dt : Z) (times : list Z) :
  length (List.filter isDrop (evictionTrace dt times)) = length times /\
  length (List.filter isTick (evictionTrace dt times)) = length times.
Proof.
  induction times as [|t times [IHd IHt]]; [split; reflexivity|].
  simpl. rewrite IHd, IHt. split; reflexivity.
Qed.

(** The trace of [dropDaemon]: the ticker's creation, the loop, and the
    deferred stop if the loop was left. *)
Lemma dropDaemon_trace (dt : Z) (envs : list TickEnv) (w : World) :
  exists tail,
    (tail = [] \/ tail = [EvTickerStop]) /\
    traceOf (dropDaemon dt envs w) =
      EvNewTicker (10 * Duration.Minute)
        :: traceOf (dropDaemon_loop dt envs
                      {| Period := 10 * Duration.Minute;
                         NextFire := clock w + 10 * Duration.Minute |} w)
        ++ tail.
Proof.
  rewrite dropDaemon_unfold.
  destruct (dropDaemon_loop dt envs _ w) as [[[tk|r|e|] w1] tr];
    unfold traceOf; simpl.
  - exists []. rewrite app_nil_r. auto.
  - exists [EvTickerStop]. auto.
  - exists [EvTickerStop]. auto.
  - exists []. rewrite app_nil_r. auto.
Qed.

(** C6.  When a bulk delete answers an error, [dropDaemon] panics with
    it: after as many successful eviction cycles as came before, the trace
    ends with the failed delete and the deferred [ticker.Stop()]; no
    further tick is received and no further delete is issued, whatever the
    later ticks would have met. *)
Theorem dropDaemon_panics_on_error
    (dt : Z) (pre : list TickEnv) (env : TickEnv) (post : list TickEnv)
    (w : World) (err : error) :
  Forall (fun x => DropErr x = None) pre ->
  DropErr env = Some err ->
  flowOf (dropDaemon dt (pre ++ env :: post) w) = Panic err /\
  (exists times now,
     length times = length pre /\
     traceOf (dropDaemon dt (pre ++ env :: post) w) =
       EvNewTicker (10 * Duration.Minute)
         :: evictionTrace dt times
         ++ [EvTick now; EvDropOldNodes now dt (Some err); EvTickerStop]) /\
  length (List.filter isDrop (traceOf (dropDaemon dt (pre ++ env :: post) w)))
    = S (length pre) /\
  dropDaemon dt (pre ++ env :: post) w = dropDaemon dt (pre ++ [env]) w.
Proof.
  intros Hok He.
  destruct (dropLoop_panics dt env err He pre
              {| Period := 10 * Duration.Minute;
                 NextFire := clock w + 10 * Duration.Minute |} w)
    as (times & now & w' & Hlen & _ & Hrun); [reflexivity | exact Hok |].
  rewrite !dropDaemon_unfold, (Hrun post), (Hrun []).
  unfold flowOf, traceOf. simpl.
  split_ands.
  - reflexivity.
  - exists times, now. split; [exact Hlen|].
    rewrite <- app_assoc. reflexivity.
  - rewrite <- app_assoc, List.filter_app, length_app.
    destruct (evictionTrace_counts dt times) as [Hd _].
    rewrite Hd, Hlen. simpl. lia.
  - reflexivity.
Qed.

Lemma dropDaemon_panics_on_error_witness :
  (Forall (fun x => DropErr x = None) [Sample.dropOk] /\
   DropErr Sample.dropFails = Some Sample.busy) /\
  flowOf (dropDaemon (24 * 60 * Duration.Minute)
            ([Sample.dropOk] ++ Sample.dropFails :: [Sample.dropOk]) Sample.idle)
    = Panic Sample.busy.
Proof.
  assert (Hok : Forall (fun x => DropErr x = None) [Sample.dropOk]).
  { constructor; [reflexivity | constructor]. }
  split; [split; [exact Hok | reflexivity]|].
  apply (dropDaemon_panics_on_error (24 * 60 * Duration.Minute)
           [Sample.dropOk] Sample.dropFails [Sample.dropOk] Sample.idle
           Sample.busy Hok eq_refl).
Defined.

(** C10.  [dropDaemon] issues no delete at startup and none before one
    full ten-minute period has elapsed: with nothing received from the
    ticker the trace holds only the ticker's creation, the first receive
    returns exactly ten minutes after it, and every delete is issued at
    least ten minutes after the start.  While every delete succeeds, the
    trace is one receive followed by one delete per cycle, at strictly
    increasing times, and the daemon stays in its loop. *)
Theorem dropDaemon_cadence (dt : Z) (envs : list TickEnv) (w : World) :
  traceOf (dropDaemon dt [] w) = [EvNewTicker (10 * Duration.Minute)] /\
  10 * Duration.Minute = 600000000000 /\
  (forall env rest, envs = env :: rest ->
     exists later,
       traceOf (dropDaemon dt envs w) =
         EvNewTicker (10 * Duration.Minute)
           :: EvTick (clock w + 10 * Duration.Minute)
           :: EvDropOldNodes (clock w + 10 * Duration.Minute) dt (DropErr env)
           :: later) /\
  (forall now d err,
     In (EvDropOldNodes now d err) (traceOf (dropDaemon dt envs w)) ->
     clock w + 10 * Duration.Minute <= now) /\
  (Forall (fun env => DropErr env = None) envs ->
     exists times,
       traceOf (dropDaemon dt envs w) =
         EvNewTicker (10 * Duration.Minute) :: evictionTrace dt times /\
       length times = length envs /\
       StronglySorted Z.lt times /\
       Forall (fun t => clock w + 10 * Duration.Minute <= t) times /\
       length (List.filter isDrop (traceOf (dropDaemon dt envs w))) = length envs /\
       length (List.filter isTick (traceOf (dropDaemon dt envs w))) = length envs /\
       flowOf (dropDaemon dt envs w) = Parked).
Proof.
  assert (Htick : forall now,
             tickTime {| Period := 10 * Duration.Minute;
                         NextFire := now + 10 * Duration.Minute |} now
             = now + 10 * Duration.Minute).
  { intros now. unfold tickTime. simpl. rewrite Minute_value. lia. }
  split_ands.
  - reflexivity.
  - reflexivity.
  - intros env rest ->.
    destruct (dropDaemon_trace dt (env :: rest) w) as (tail & _ & Htr).
    rewrite Htr, dropLoop_step, Htick.
    destruct (DropErr env) as [e|].
    + unfold traceOf. simpl. eexists. reflexivity.
    + destruct (dropDaemon_loop dt rest _ _) as [[fl w2] tr].
      unfold traceOf. simpl. eexists. reflexivity.
  - intros now d err Hin.
    destruct (dropDaemon_trace dt envs w) as (tail & Htail & Htr).
    rewrite Htr in Hin. simpl in Hin.
    destruct Hin as [H|Hin]; [discriminate H|].
    apply in_app_or in Hin. destruct Hin as [Hin|Hin].
    + apply dropLoop_no_early_delete in Hin; [|reflexivity].
      rewrite Htick in Hin. exact Hin.
    + destruct Htail as [-> | ->]; no_such_event Hin.
  - intros Hok.
    destruct (dropLoop_succeeds dt envs
                {| Period := 10 * Duration.Minute;
                   NextFire := clock w + 10 * Duration.Minute |} w)
      as (times & tk & w' & Hrun & Hlen & Hall & Hsort & _);
      [reflexivity | exact Hok |].
    rewrite Htick in Hall.
    exists times. rewrite dropDaemon_unfold, Hrun.
    unfold flowOf, traceOf. simpl.
    destruct (evictionTrace_counts dt times) as [Hd Ht].
    split_ands; try reflexivity; try assumption; congruence.
Qed.

(* ===================================================================== *)
(** ** Runs on sample data                                               *)
(* ===================================================================== *)

(** Two pending records, no faults: both reach the serving store and the
    transient store is drained; a second cycle finds nothing to do. *)
Example sync_two_records :
  let w1 := worldOf (transferNewNodes noFaults Sample.pending) in
  crawlerDB w1 = [] /\
  (Peer <$> nodeDB w1 !! 1%N) = Some Sample.peerA /\
  (Peer <$> nodeDB w1 !! 2%N) = Some Sample.peerB /\
  traceOf (transferNewNodes noFaults w1) =
    [EvBegin None; EvReadAndDeleteUnseenNodes (inl []); EvCommit None;
     EvRollback (Some ErrTxDone)].
Proof. vm_compute. repeat split. Qed.

(** A re-observation of a known peer refreshes its row and keeps its
    first-seen timestamp. *)
Example upsert_keeps_first_seen :
  let seenAgain :=
    {| ID := 1; Address := "10.0.0.9:30303"; ClientInfo := "geth"; LastSeen := 9 |} in
  upsertBatch ∅ [Sample.peerA; seenAgain] !! 1%N
    = Some {| Peer := seenAgain; FirstSeen := 5 |}.
Proof. vm_compute. reflexivity. Qed.

(** A delete that runs for 1300 s spans two firings of the ticker: one
    tick waits in the channel and is received at once, the other is
    dropped, so the third delete follows the second without a pause. *)
Example slow_delete_skips_a_tick :
  List.filter isTick
    (traceOf (dropDaemon (24 * 60 * Duration.Minute)
                [Sample.dropOk; Sample.dropSlow; Sample.dropOk] Sample.idle))
  = [EvTick (600 * Duration.Second); EvTick (1200 * Duration.Second);
     EvTick (2500 * Duration.Second)].
Proof. vm_compute. reflexivity. Qed.

(* ===================================================================== *)
(** ** Start-up                                                          *)
(* ===================================================================== *)

Ltac start_cases env :=
  destruct env as [[e1|] [| |se] [e2|] [e3|] [e4|]];
  unfold startAPI, startsUp, openSQLiteDB, osStat, CreateDB, OpenDB,
    start_bind, start_emit, start_ret, start_return, start_panic;
  cbn [OpenCrawlerDBErr StatAPIDB OpenAPIDBErr CreateDBErr OpenEnodeDBErr
       IsNotExist fst snd app].

(** X1.  [startAPI] starts the daemons exactly when every start-up call
    succeeded, and then it starts all three, once each and in the order
    synchronization, eviction, API.  The synchronization daemon gets the
    handles of the crawler and the API database, the eviction daemon the
    same API database handle and the retention read from the drop flag,
    and the crawler handed to the API daemon holds the same crawler
    database handle.  After a failed start-up call no daemon is started. *)
Theorem startAPI_starts_daemons (env : StartEnv) (ctx : Context) :
  (fst (startAPI env ctx) = Parked <-> startsUp env = true) /\
  (startsUp env = false -> List.filter isGo (snd (startAPI env ctx)) = []) /\
  (startsUp env = true ->
   exists crawler,
     List.filter isGo (snd (startAPI env ctx)) =
       [SGoNewNodeDaemon (SQLiteDB (crawlerDBFlag ctx)) (SQLiteDB (apiDBFlag ctx));
        SGoDropDaemon (SQLiteDB (apiDBFlag ctx)) (dropNodesTimeFlag ctx);
        SGoAPIDaemon (apiListenAddrFlag ctx) (SQLiteDB (apiDBFlag ctx)) crawler] /\
     CrawlerDB crawler = SQLiteDB (crawlerDBFlag ctx) /\
     NodeDB crawler = EnodeDBAt (nodedbFlag ctx) /\
     ListenAddr crawler = listenAddrFlag ctx).
Proof.
  start_cases env; split_ands;
    try (split; intros H; (discriminate H || reflexivity));
    try (intros H; (discriminate H || reflexivity));
    intros _; eexists; split_ands; reflexivity.
Qed.

(** X2.  [startAPI] creates the schema of the API database exactly when
    [os.Stat] reported, before the file was opened, that it did not exist,
    and both databases opened; another [os.Stat] error does not count.
    The call is made once, on the API database handle, and the order of
    the first calls is: open the crawler database, stat the API database,
    open the API database. *)
Theorem startAPI_creates_schema (env : StartEnv) (ctx : Context) :
  (forall db err,
     In (SCreateDB db err) (snd (startAPI env ctx)) <->
     OpenCrawlerDBErr env = None /\ StatAPIDB env = StatNotExist /\
     OpenAPIDBErr env = None /\
     db = SQLiteDB (apiDBFlag ctx) /\ err = CreateDBErr env) /\
  (length (List.filter isCreateDB (snd (startAPI env ctx))) <= 1)%nat /\
  (OpenCrawlerDBErr env = None ->
   exists rest,
     snd (startAPI env ctx) =
       SOpenSQLiteDB (crawlerDBFlag ctx) (autovacuumFlag ctx) (busyTimeoutFlag ctx) None
       :: SStat (apiDBFlag ctx) (StatAPIDB env)
       :: SOpenSQLiteDB (apiDBFlag ctx) (autovacuumFlag ctx) (busyTimeoutFlag ctx)
            (OpenAPIDBErr env)
       :: rest).
Proof.
  start_cases env; split_ands;
    try (intros db err; split;
         [ intros H; simpl in H;
           repeat (destruct H as [H|H]; [try discriminate H|]);
           try contradiction H;
           try (injection H as <- <-; split_ands; reflexivity)
         | intros (H1 & H2 & H3 & -> & ->); try discriminate;
           simpl; tauto ]);
    try (simpl; lia);
    try (intros H; try discriminate H; eexists; reflexivity).
Qed.

(** X3.  An error [startAPI] returns is the one answered by opening the
    crawler database, opening the API database or creating the schema,
    whichever failed first, handed on as it is.  A failure to open the
    discovery node database is not returned: the function panics with it,
    exactly when everything before it succeeded, so only after both SQLite
    databases were opened. *)
Theorem startAPI_failures (env : StartEnv) (ctx : Context) :
  (forall e,
     fst (startAPI env ctx) = Return (Some e) <->
     OpenCrawlerDBErr env = Some e \/
     (OpenCrawlerDBErr env = None /\ OpenAPIDBErr env = Some e) \/
     (OpenCrawlerDBErr env = None /\ OpenAPIDBErr env = None /\
      StatAPIDB env = StatNotExist /\ CreateDBErr env = Some e)) /\
  (forall e,
     fst (startAPI env ctx) = Panic e <->
     OpenEnodeDBErr env = Some e /\ OpenCrawlerDBErr env = None /\
     OpenAPIDBErr env = None /\
     (StatAPIDB env = StatNotExist -> CreateDBErr env = None)) /\
  (forall e,
     fst (startAPI env ctx) = Panic e ->
     In (SOpenSQLiteDB (crawlerDBFlag ctx) (autovacuumFlag ctx) (busyTimeoutFlag ctx) None)
        (snd (startAPI env ctx)) /\
     In (SOpenSQLiteDB (apiDBFlag ctx) (autovacuumFlag ctx) (busyTimeoutFlag ctx) None)
        (snd (startAPI env ctx))).
Proof.
  start_cases env; split_ands;
    try (intros e; split;
         [ intros H; try discriminate H; try (injection H as <-);
           split_ands; try reflexivity; try discriminate; tauto
         | intros H; decompose [and or] H; clear H; try discriminate;
           try congruence;
           try match goal with
               | Hc : StatNotExist = StatNotExist -> _ |- _ =>
                   specialize (Hc eq_refl); discriminate Hc
               end ]);
    try (intros e H; try discriminate H; simpl; tauto).
Qed.

(* ===================================================================== *)
(** ** More on a synchronization cycle                                   *)
(* ===================================================================== *)

(** X4.  A cycle fails exactly when [Begin] fails, or the extraction
    fails, or the insert of a non-empty batch fails: neither the outcome of
    [Commit] nor an insert fault on an empty batch makes
    [transferNewNodes] return an error.  The error returned wraps the
    error of the call that failed under the message of that step.
    [Begin] fails with the error the environment answers, or, on a
    connection left inside the transaction of an earlier failed commit,
    with the driver's refusal. *)
Theorem transferNewNodes_fails_iff (f : Faults) (w : World) :
  (cycleFails f w = true <->
   beginAnswer f w <> None \/ ReadErr f <> None \/
   (crawlerDB w <> [] /\ InsertErr f <> None)) /\
  (forall err,
     flowOf (transferNewNodes f w) = Return (Some err) ->
     exists cause,
       (err = Errorf "error starting transaction to read nodes" cause /\
        beginAnswer f w = Some cause) \/
       (err = Errorf "error reading nodes" cause /\
        beginAnswer f w = None /\ ReadErr f = Some cause) \/
       (err = Errorf "error inserting nodes" cause /\
        beginAnswer f w = None /\ ReadErr f = None /\ InsertErr f = Some cause)) /\
  (connInTx w = false -> beginAnswer f w = BeginErr f) /\
  (connInTx w = true -> beginAnswer f w = Some errInTransaction).
Proof.
  assert (Hclean : connInTx w = false -> beginAnswer f w = BeginErr f)
    by (unfold beginAnswer; intros ->; reflexivity).
  assert (Hstuck : connInTx w = true -> beginAnswer f w = Some errInTransaction)
    by (unfold beginAnswer; intros ->; reflexivity).
  unfold cycleFails.
  transfer_cases f w; unfold flowOf; simpl; split_ands; try assumption.
  all: try (split; [intros _ | reflexivity]).
  all: try (split; [intros H; discriminate H | intros [H|[H|[H1 H2]]]; congruence]).
  all: try (intros err H; try discriminate H; injection H as <-; exists e; tauto).
  - left. congruence.
  - right. left. congruence.
  - right. right. split; congruence.
Qed.

(** X6.  When the extraction answers an error, [transferNewNodes]
    returns it wrapped as "error reading nodes"; it calls neither
    [InsertCrawledNodes] nor [Commit], the rollback closes the
    transaction, and both stores hold what they held. *)
Theorem transferNewNodes_read_error (f : Faults) (w : World) (err : error) :
  In (EvReadAndDeleteUnseenNodes (inr err)) (traceOf (transferNewNodes f w)) ->
  flowOf (transferNewNodes f w) = Return (Some (Errorf "error reading nodes" err)) /\
  List.filter isInsert (traceOf (transferNewNodes f w)) = [] /\
  List.filter isCommit (traceOf (transferNewNodes f w)) = [] /\
  In (EvRollback None) (traceOf (transferNewNodes f w)) /\
  worldOf (transferNewNodes f w) = setCrawlerDBTx None w.
Proof.
  transfer_cases f w; unfold flowOf, worldOf, traceOf; simpl; intros Hin;
    try (no_such_event Hin).
  destruct Hin as [H|[H|H]]; [discriminate H | | no_such_event H].
  injection H as <-. split_ands; try reflexivity. tauto.
Qed.

Lemma transferNewNodes_read_error_witness :
  In (EvReadAndDeleteUnseenNodes (inr Sample.busy))
     (traceOf (transferNewNodes Fixtures.readFails Sample.pending)) /\
  flowOf (transferNewNodes Fixtures.readFails Sample.pending)
    = Return (Some (Errorf "error reading nodes" Sample.busy)).
Proof.
  assert (Hin : In (EvReadAndDeleteUnseenNodes (inr Sample.busy))
                   (traceOf (transferNewNodes Fixtures.readFails Sample.pending))).
  { simpl. right. left. reflexivity. }
  split; [exact Hin|].
  apply (transferNewNodes_read_error Fixtures.readFails Sample.pending Sample.busy Hin).
Defined.

(** X7.  A cycle calls [InsertCrawledNodes] at most once, never with an
    empty batch, and always with the whole batch it extracted; "Nodes
    inserted" is logged only after an insert that succeeded, with the size
    of that batch. *)
Theorem transferNewNodes_insert_discipline (f : Faults) (w : World) :
  (length (List.filter isInsert (traceOf (transferNewNodes f w))) <= 1)%nat /\
  (forall nodes ie,
     In (EvInsertCrawledNodes nodes ie) (traceOf (transferNewNodes f w)) ->
     nodes = crawlerDB w /\ nodes <> [] /\ ie = InsertErr f /\
     In (EvReadAndDeleteUnseenNodes (inl nodes)) (traceOf (transferNewNodes f w))) /\
  (forall msg n,
     In (EvLogInfo msg n) (traceOf (transferNewNodes f w)) ->
     n = length (crawlerDB w) /\
     In (EvInsertCrawledNodes (crawlerDB w) None) (traceOf (transferNewNodes f w))).
Proof.
  transfer_cases f w; unfold traceOf; simpl; split_ands; try lia;
    try (intros nodes ie H; no_such_event H);
    try (intros msg n H; no_such_event H).
  - intros nodes ie [H|[H|[H|[H|[]]]]]; try discriminate H.
    injection H as <- <-. split_ands; try tauto. congruence.
  - intros nodes ie [H|[H|[H|H]]]; try discriminate H; [|no_such_event H].
    injection H as <- <-. split_ands; try tauto. congruence.
  - intros msg n [H|[H|[H|[H|H]]]]; try discriminate H; [|no_such_event H].
    injection H as <- <-. tauto.
  - intros nodes ie [H|[H|[H|H]]]; try discriminate H; [|no_such_event H].
    injection H as <- <-. split_ands; try tauto. congruence.
  - intros msg n [H|[H|[H|[H|H]]]]; try discriminate H; [|no_such_event H].
    injection H as <- <-. tauto.
Qed.

(* ===================================================================== *)
(** ** Runs of the synchronization daemon                                *)
(* ===================================================================== *)

Lemma delivered_app (a b : list Event) :
  delivered (a ++ b) = delivered a ++ delivered b.
Proof. unfold delivered. apply flat_map_app. Qed.

(** An upsert keeps the rows it does not touch, and the first-seen
    timestamp of the row it refreshes. *)
Lemma upsert_first_seen (db : gmap N ServingRecord) (r : PeerRecord) (k : N)
    (s : ServingRecord) :
  db !! k = Some s ->
  exists s', upsert db r !! k = Some s' /\ FirstSeen s' = FirstSeen s.
Proof.
  intros Hk. unfold upsert. destruct (decide (ID r = k)) as [Heq|Hne].
  - rewrite Heq, Hk, lookup_insert_eq. eexists; split; reflexivity.
  - destruct (db !! ID r); rewrite lookup_insert_ne by exact Hne; eauto.
Qed.

Lemma upsertBatch_first_seen (nodes : list PeerRecord) :
  forall (db : gmap N ServingRecord) (k : N) (s : ServingRecord),
    db !! k = Some s ->
    exists s', upsertBatch db nodes !! k = Some s' /\ FirstSeen s' = FirstSeen s.
Proof.
  induction nodes as [|r nodes IH]; intros db k s Hk; simpl.
  - eauto.
  - destruct (upsert_first_seen db r k s Hk) as (s1 & H1 & Hf1).
    destruct (IH _ _ _ H1) as (s2 & H2 & Hf2).
    exists s2. split; [exact H2 | congruence].
Qed.

(** What one cycle does to the two stores, in terms of what it delivered. *)
Lemma cycle_accounts (f : Faults) (w : World) :
  (forall r, In r (crawlerDB w) ->
             In r (crawlerDB (worldOf (transferNewNodes f w))) \/
             In r (delivered (traceOf (transferNewNodes f w)))) /\
  (CommitErr f = None ->
   delivered (traceOf (transferNewNodes f w))
     ++ crawlerDB (worldOf (transferNewNodes f w)) = crawlerDB w) /\
  (forall r, In r (delivered (traceOf (transferNewNodes f w))) ->
             is_Some (nodeDB (worldOf (transferNewNodes f w)) !! ID r)) /\
  (forall k s, nodeDB w !! k = Some s ->
               exists s', nodeDB (worldOf (transferNewNodes f w)) !! k = Some s' /\
                          FirstSeen s' = FirstSeen s) /\
  clock (worldOf (transferNewNodes f w)) = clock w.
Proof.
  transfer_cases f w; unfold worldOf, traceOf; simpl; rewrite ?app_nil_r;
    split_ands; try reflexivity; try tauto; eauto;
    try (intros k s Hk; apply upsertBatch_first_seen; exact Hk);
    try (intros r Hin; apply upsertBatch_covers; exact Hin);
    try (intros r Hin; contradiction Hin);
    try congruence.
Qed.

(** An iteration of the daemon adds to a cycle only logging and sleeping. *)
Lemma iter_accounts (f : Faults) (t : Z) (w : World) :
  crawlerDB (worldOf (newNodeDaemon_iter f t w))
    = crawlerDB (worldOf (transferNewNodes f w)) /\
  nodeDB (worldOf (newNodeDaemon_iter f t w))
    = nodeDB (worldOf (transferNewNodes f w)) /\
  delivered (traceOf (newNodeDaemon_iter f t w))
    = delivered (traceOf (transferNewNodes f w)).
Proof.
  destruct (transferNewNodes_returns f w) as [[e|] Hr].
  - rewrite (iter_failed f t w e Hr). unfold worldOf at 1 3, traceOf at 1.
    simpl. rewrite delivered_app. simpl. rewrite app_nil_r. auto.
  - rewrite (iter_succeeded f t w Hr). unfold worldOf at 1 3, traceOf at 1.
    simpl. rewrite delivered_app. simpl. rewrite app_nil_r. auto.
Qed.

(** The loop, one cycle at a time. *)
Lemma loop_cons (env : CycleEnv) (rest : list CycleEnv) (t : Z) (w : World) :
  exists t1,
    flowOf (newNodeDaemon_iter (CycleFaults env) t
              (setCrawlerDB (crawlerDB w ++ Arrivals env) w)) = Next t1 /\
    newNodeDaemon_loop (env :: rest) t w =
      (flowOf (newNodeDaemon_loop rest t1
                 (worldOf (newNodeDaemon_iter (CycleFaults env) t
                             (setCrawlerDB (crawlerDB w ++ Arrivals env) w)))),
       worldOf (newNodeDaemon_loop rest t1
                  (worldOf (newNodeDaemon_iter (CycleFaults env) t
                              (setCrawlerDB (crawlerDB w ++ Arrivals env) w)))),
       traceOf (newNodeDaemon_iter (CycleFaults env) t
                  (setCrawlerDB (crawlerDB w ++ Arrivals env) w))
       ++ traceOf (newNodeDaemon_loop rest t1
                     (worldOf (newNodeDaemon_iter (CycleFaults env) t
                                 (setCrawlerDB (crawlerDB w ++ Arrivals env) w))))).
Proof.
  destruct (iter_continues (CycleFaults env) t
              (setCrawlerDB (crawlerDB w ++ Arrivals env) w)) as [t1 H1].
  exists t1. split; [exact H1|].
  cbn [newNodeDaemon_loop]. unfold go_bind, crawlerAppend, modify.
  destruct (newNodeDaemon_iter _ _ _) as [[fl1 w1] tr1].
  unfold flowOf in H1; simpl in H1; subst fl1.
  unfold flowOf, worldOf, traceOf. simpl.
  destruct (newNodeDaemon_loop rest t1 w1) as [[fl2 w2] tr2]. reflexivity.
Qed.

(** [newNodeDaemon] ends where its loop, started at one minute, ends. *)
Lemma newNodeDaemon_run (envs : list CycleEnv) (w : World) :
  worldOf (newNodeDaemon envs w) = worldOf (newNodeDaemon_loop envs Duration.Minute w) /\
  traceOf (newNodeDaemon envs w) = traceOf (newNodeDaemon_loop envs Duration.Minute w).
Proof.
  unfold newNodeDaemon, go_bind, parked.
  destruct (loop_continues envs Duration.Minute w) as [t H].
  destruct (newNodeDaemon_loop envs Duration.Minute w) as [[fl w1] tr1].
  unfold flowOf in H; simpl in H; subst fl.
  unfold worldOf, traceOf. simpl. rewrite app_nil_r. auto.
Qed.

(** Projects the runs that are given as explicit triples. *)
Ltac project_run :=
  repeat match goal with
    | |- context [worldOf (?a, ?b, ?c)] => change (worldOf (a, b, c)) with b
    | |- context [traceOf (?a, ?b, ?c)] => change (traceOf (a, b, c)) with c
    | |- context [flowOf (?a, ?b, ?c)] => change (flowOf (a, b, c)) with a
    end.

Lemma loop_keeps_rows (envs : list CycleEnv) :
  forall (t : Z) (w : World) (k : N) (s : ServingRecord),
    nodeDB w !! k = Some s ->
    exists s', nodeDB (worldOf (newNodeDaemon_loop envs t w)) !! k = Some s' /\
               FirstSeen s' = FirstSeen s.
Proof.
  induction envs as [|env rest IH]; intros t w k s Hk.
  - exists s. auto.
  - destruct (loop_cons env rest t w) as (t1 & _ & Heq). rewrite Heq.
    project_run.
    set (w1 := setCrawlerDB (crawlerDB w ++ Arrivals env) w) in *.
    destruct (iter_accounts (CycleFaults env) t w1) as (_ & Hdb & _).
    destruct (cycle_accounts (CycleFaults env) w1) as (_ & _ & _ & Hkeep & _).
    destruct (Hkeep k s Hk) as (s1 & H1 & Hf1).
    rewrite <- Hdb in H1.
    destruct (IH t1 _ k s1 H1) as (s2 & H2 & Hf2).
    exists s2. split; [exact H2 | congruence].
Qed.

Lemma loop_no_loss (envs : list CycleEnv) :
  forall (t : Z) (w : World) (r : PeerRecord),
    In r (crawlerDB w ++ allArrivals envs) ->
    In r (crawlerDB (worldOf (newNodeDaemon_loop envs t w))) \/
    (In r (delivered (traceOf (newNodeDaemon_loop envs t w))) /\
     is_Some (nodeDB (worldOf (newNodeDaemon_loop envs t w)) !! ID r)).
Proof.
  induction envs as [|env rest IH]; intros t w r Hin.
  - left. simpl in *. rewrite app_nil_r in Hin. exact Hin.
  - destruct (loop_cons env rest t w) as (t1 & _ & Heq). rewrite Heq.
    project_run. rewrite delivered_app.
    set (w1 := setCrawlerDB (crawlerDB w ++ Arrivals env) w) in *.
    destruct (iter_accounts (CycleFaults env) t w1) as (Hc & Hdb & Hdel).
    destruct (cycle_accounts (CycleFaults env) w1) as (Hmove & _ & Hin_db & _).
    set (w2 := worldOf (newNodeDaemon_iter (CycleFaults env) t w1)) in *.
    assert (Hcase : In r (crawlerDB w1) \/ In r (allArrivals rest)).
    { unfold allArrivals in *. simpl in Hin. rewrite app_assoc in Hin.
      apply in_app_or in Hin. exact Hin. }
    assert (Hcarry : In r (crawlerDB w2 ++ allArrivals rest) ->
              In r (crawlerDB (worldOf (newNodeDaemon_loop rest t1 w2))) \/
              In r (delivered (traceOf (newNodeDaemon_iter (CycleFaults env) t w1))
                    ++ delivered (traceOf (newNodeDaemon_loop rest t1 w2))) /\
              is_Some (nodeDB (worldOf (newNodeDaemon_loop rest t1 w2)) !! ID r)).
    { intros H. destruct (IH t1 w2 r H) as [Hl|[Hd Hs]]; [left; exact Hl|].
      right. split; [apply in_or_app; right; exact Hd | exact Hs]. }
    destruct Hcase as [Hpend|Hlater].
    + destruct (Hmove r Hpend) as [Hstill|Hdone].
      * apply Hcarry. apply in_or_app. left. rewrite Hc. exact Hstill.
      * right. split.
        -- apply in_or_app. left. rewrite Hdel. exact Hdone.
        -- destruct (Hin_db r Hdone) as [s Hs]. rewrite <- Hdb in Hs.
           destruct (loop_keeps_rows rest t1 w2 (ID r) s Hs) as (s' & Hs' & _).
           exists s'. exact Hs'.
    + apply Hcarry. apply in_or_app. right. exact Hlater.
Qed.


(** X8.  The synchronization daemon loses no record, whatever errors its
    cycles meet: at any point of a run, a record that was pending at the
    start or was appended by the crawling engine since is either still
    pending in the transient store or was handed to a successful insert
    and has a row in the serving store under its identifier. *)
Theorem newNodeDaemon_no_loss (envs : list CycleEnv) (w : World) (r : PeerRecord) :
  In r (crawlerDB w ++ allArrivals envs) ->
  In r (crawlerDB (worldOf (newNodeDaemon envs w))) \/
  (In r (delivered (traceOf (newNodeDaemon envs w))) /\
   is_Some (nodeDB (worldOf (newNodeDaemon envs w)) !! ID r)).
Proof.
  destruct (newNodeDaemon_run envs w) as [-> ->]. apply loop_no_loss.
Qed.

Lemma newNodeDaemon_no_loss_witness :
  In Sample.peerB
     (crawlerDB Sample.pending
      ++ allArrivals [Fixtures.arrivalCycle; Fixtures.quietCycle]) /\
  (In Sample.peerB
      (crawlerDB (worldOf (newNodeDaemon
                             [Fixtures.arrivalCycle; Fixtures.quietCycle]
                             Sample.pending))) \/
   (In Sample.peerB
       (delivered (traceOf (newNodeDaemon
                              [Fixtures.arrivalCycle; Fixtures.quietCycle]
                              Sample.pending))) /\
    is_Some (nodeDB (worldOf (newNodeDaemon
                                [Fixtures.arrivalCycle; Fixtures.quietCycle]
                                Sample.pending)) !! ID Sample.peerB))).
Proof.
  assert (Hin : In Sample.peerB
                   (crawlerDB Sample.pending
                    ++ allArrivals [Fixtures.arrivalCycle; Fixtures.quietCycle])).
  { simpl. right. left. reflexivity. }
  split; [exact Hin|].
  apply (newNodeDaemon_no_loss [Fixtures.arrivalCycle; Fixtures.quietCycle]
           Sample.pending Sample.peerB Hin).
Defined.

(** X10.  The synchronization daemon never removes a row of the serving
    store and never changes a row's first-seen timestamp: a row present at
    the start of a run is present at every later point with the first-seen
    it had. *)
Theorem newNodeDaemon_keeps_rows
    (envs : list CycleEnv) (w : World) (k : N) (s : ServingRecord) :
  nodeDB w !! k = Some s ->
  exists s', nodeDB (worldOf (newNodeDaemon envs w)) !! k = Some s' /\
             FirstSeen s' = FirstSeen s.
Proof.
  destruct (newNodeDaemon_run envs w) as [-> _]. apply loop_keeps_rows.
Qed.

Lemma newNodeDaemon_keeps_rows_witness :
  nodeDB Fixtures.served !! 1%N = Some {| Peer := Sample.peerA; FirstSeen := 2 |} /\
  exists s', nodeDB (worldOf (newNodeDaemon [Fixtures.quietCycle] Fixtures.served)) !! 1%N
               = Some s' /\
             FirstSeen s' = 2.
Proof.
  assert (Hk : nodeDB Fixtures.served !! 1%N
               = Some {| Peer := Sample.peerA; FirstSeen := 2 |}).
  { apply lookup_singleton_eq. }
  split; [exact Hk|].
  apply (newNodeDaemon_keeps_rows [Fixtures.quietCycle] Fixtures.served 1%N _ Hk).
Defined.

(* ===================================================================== *)
(** ** The course of the backoff                                         *)
(* ===================================================================== *)

Lemma afterFailures_add (a b : nat) :
  forall t, afterFailures (a + b) t = afterFailures b (afterFailures a t).
Proof.
  induction a as [|a IH]; intros t; [reflexivity|].
  cbn [Nat.add afterFailures]. apply IH.
Qed.

Lemma afterFailures_zero (k : nat) : afterFailures k 0 = 0.
Proof. induction k as [|k IH]; [reflexivity | exact IH]. Qed.

Lemma backoffSchedule_cons (t : Z) (k : nat) :
  backoffSchedule t (S k) = EvSleep t :: backoffSchedule (2 * t) k.
Proof.
  unfold backoffSchedule. cbn [seq map].
  rewrite <- seq_shift, List.map_map. f_equal.
  - f_equal. change (Z.of_nat 0) with 0. lia.
  - apply List.map_ext. intros i. f_equal.
    rewrite Nat2Z.inj_succ, Z.pow_succ_r by lia. lia.
Qed.

(** A run of consecutive failures, while the doublings are exact: what
    the daemon sleeps and where the clock ends. *)
Lemma loop_failures_sleep (envs : list CycleEnv) :
  forall (t : Z) (w : World),
    consecutiveFailures envs t w ->
    0 < t -> t * 2 ^ Z.of_nat (length envs) < 2 ^ 63 ->
    List.filter isSleep (traceOf (newNodeDaemon_loop envs t w))
      = backoffSchedule t (length envs) /\
    clock (worldOf (newNodeDaemon_loop envs t w))
      = clock w + t * (2 ^ Z.of_nat (length envs) - 1).
Proof.
  induction envs as [|env rest IH]; intros t w Hall Hpos Hfit.
  - split; [reflexivity|].
    change (worldOf (newNodeDaemon_loop [] t w)) with w.
    change (2 ^ Z.of_nat (length (@nil CycleEnv))) with 1. lia.
  - destruct Hall as [Hf Hrest]. cbv zeta in Hf, Hrest.
    cbn [length] in *. rewrite Nat2Z.inj_succ, Z.pow_succ_r in * by lia.
    assert (Hk : 0 < 2 ^ Z.of_nat (length rest)) by (apply Z.pow_pos_nonneg; lia).
    assert (H2 : Duration.mul t 2 = 2 * t) by (apply mul2_exact; nia).
    destruct (loop_cons env rest t w) as (t1 & Ht1 & Heq). rewrite Heq.
    project_run.
    set (w1 := setCrawlerDB (crawlerDB w ++ Arrivals env) w) in *.
    rewrite (iter_failed_timer _ t w1 Hf) in Ht1. injection Ht1 as <-.
    destruct (cycleFails_inv _ _ Hf) as [e He].
    destruct (cycle_accounts (CycleFaults env) w1) as (_ & _ & _ & _ & Hclock).
    rewrite (iter_failed _ t w1 e He) in *. project_run.
    unfold worldOf at 1 in Hrest. cbn [fst snd] in Hrest.
    rewrite H2 in *.
    destruct (IH (2 * t) _ Hrest) as [Hsl Hcl]; [lia | nia |].
    split.
    + rewrite !List.filter_app, transfer_no_sleep, Hsl, backoffSchedule_cons.
      reflexivity.
    + rewrite Hcl. cbn [clock setClock]. rewrite Hclock.
      replace (clock w1) with (clock w) by reflexivity. lia.
Qed.

(** X11.  While the daemon meets nothing but failures from its start, up
    to 27 of them, it sleeps one minute, then two, then four, ..., doubling
    each time, and these are its only sleeps; after [k] such failures it
    has slept [2^k - 1] minutes in all. *)
Theorem newNodeDaemon_backoff_schedule (envs : list CycleEnv) (w : World) :
  consecutiveFailures envs Duration.Minute w ->
  (length envs <= 27)%nat ->
  List.filter isSleep (traceOf (newNodeDaemon envs w))
    = backoffSchedule Duration.Minute (length envs) /\
  clock (worldOf (newNodeDaemon envs w))
    = clock w + Duration.Minute * (2 ^ Z.of_nat (length envs) - 1).
Proof.
  intros Hall Hlen.
  destruct (newNodeDaemon_run envs w) as [-> ->].
  apply loop_failures_sleep; [exact Hall | reflexivity |].
  assert (H27 : 2 ^ Z.of_nat (length envs) <= 2 ^ 27) by (apply Z.pow_le_mono_r; lia).
  rewrite Minute_value. change (2 ^ 27) with 134217728 in H27. lia.
Qed.

Lemma newNodeDaemon_backoff_schedule_witness :
  (consecutiveFailures [Sample.failingCycle; Sample.failingCycle; Sample.failingCycle]
     Duration.Minute Sample.pending /\
   (length [Sample.failingCycle; Sample.failingCycle; Sample.failingCycle] <= 27)%nat) /\
  clock (worldOf (newNodeDaemon
                    [Sample.failingCycle; Sample.failingCycle; Sample.failingCycle]
                    Sample.pending))
    = 7 * Duration.Minute.
Proof.
  assert (Hall : consecutiveFailures
                   [Sample.failingCycle; Sample.failingCycle; Sample.failingCycle]
                   Duration.Minute Sample.pending).
  { simpl. repeat split. }
  assert (Hlen : (length [Sample.failingCycle; Sample.failingCycle;
                          Sample.failingCycle] <= 27)%nat) by (simpl; lia).
  split; [split; [exact Hall | exact Hlen]|].
  destruct (newNodeDaemon_backoff_schedule _ Sample.pending Hall Hlen) as [_ Hc].
  rewrite Hc. reflexivity.
Defined.

(** Cycles whose [Begin] fails are failures in whatever world they run. *)
Lemma begin_failures_consecutive (envs : list CycleEnv) :
  forall (t : Z) (w : World),
    Forall (fun env => BeginErr (CycleFaults env) <> None) envs ->
    consecutiveFailures envs t w.
Proof.
  induction envs as [|env rest IH]; intros t w Hall; [exact I|].
  inversion Hall as [|? ? Henv Hrest]; subst.
  cbn [consecutiveFailures]. split; [|apply IH; exact Hrest].
  apply begin_fault_fails. exact Henv.
Qed.

(** X12.  The doubling has no floor either: once the daemon has met 53
    consecutive failures from its start the int64 timer is zero, it stays
    zero under further failures, and a failed cycle at timer zero asks for
    a sleep of zero and passes no time before the next attempt. *)
Theorem newNodeDaemon_timer_reaches_zero (envs : list CycleEnv) (w : World) :
  consecutiveFailures envs Duration.Minute w ->
  (53 <= length envs)%nat ->
  flowOf (newNodeDaemon_loop envs Duration.Minute w) = Next 0 /\
  (forall f w1,
     cycleFails f w1 = true ->
     flowOf (newNodeDaemon_iter f 0 w1) = Next 0 /\
     List.filter isSleep (traceOf (newNodeDaemon_iter f 0 w1)) = [EvSleep 0] /\
     clock (worldOf (newNodeDaemon_iter f 0 w1)) = clock w1).
Proof.
  intros Hall Hlen. split.
  - rewrite (loop_consecutive_failures envs _ _ Hall).
    replace (length envs) with (53 + (length envs - 53))%nat by lia.
    rewrite afterFailures_add.
    replace (afterFailures 53 Duration.Minute) with 0 by (vm_compute; reflexivity).
    rewrite afterFailures_zero. reflexivity.
  - intros f w1 Hf.
    destruct (cycleFails_inv _ _ Hf) as [e He].
    destruct (cycle_accounts f w1) as (_ & _ & _ & _ & Hclock).
    rewrite (iter_failed f 0 w1 e He). project_run. split_ands.
    + reflexivity.
    + rewrite List.filter_app, transfer_no_sleep. reflexivity.
    + cbn [clock setClock]. rewrite Hclock. change (Z.max 0 0) with 0. lia.
Qed.

Lemma newNodeDaemon_timer_reaches_zero_witness :
  (consecutiveFailures (repeat Sample.failingCycle 53) Duration.Minute Sample.idle /\
   (53 <= length (repeat Sample.failingCycle 53))%nat) /\
  flowOf (newNodeDaemon_loop (repeat Sample.failingCycle 53) Duration.Minute
            Sample.idle) = Next 0.
Proof.
  assert (Hall : consecutiveFailures (repeat Sample.failingCycle 53)
                   Duration.Minute Sample.idle).
  { apply begin_failures_consecutive. apply List.Forall_forall.
    intros env Hin. apply repeat_spec in Hin. subst env. discriminate. }
  assert (Hlen : (53 <= length (repeat Sample.failingCycle 53))%nat)
    by (rewrite repeat_length; lia).
  split; [split; [exact Hall | exact Hlen]|].
  apply (newNodeDaemon_timer_reaches_zero _ Sample.idle Hall Hlen).
Defined.

(* ===================================================================== *)
(** ** Runs of the eviction daemon                                       *)
(* ===================================================================== *)

Lemma deleteOlderThan_subseteq (now dt : Z) (db : gmap N ServingRecord) :
  deleteOlderThan now dt db ⊆ db.
Proof. unfold deleteOlderThan. apply map_filter_subseteq. Qed.

(** What is left after a delete is as recent as the retention asks, and
    what was that recent is left. *)
Lemma deleteOlderThan_lookup (now dt : Z) (db : gmap N ServingRecord)
    (k : N) (s : ServingRecord) :
  deleteOlderThan now dt db !! k = Some s <->
  db !! k = Some s /\ now - dt <= LastSeen (Peer s).
Proof.
  unfold deleteOlderThan. rewrite map_lookup_filter_Some. simpl.
  destruct (Z.ltb_spec (LastSeen (Peer s)) (now - dt)); simpl;
    intuition (try discriminate; try lia).
Qed.

(** A later delete makes an earlier one redundant. *)
Lemma deleteOlderThan_twice (t1 t2 dt : Z) (db : gmap N ServingRecord) :
  t1 <= t2 ->
  deleteOlderThan t2 dt (deleteOlderThan t1 dt db) = deleteOlderThan t2 dt db.
Proof.
  intros Hle. unfold deleteOlderThan. apply map_filter_filter_l.
  intros k s _. simpl.
  destruct (Z.ltb_spec (LastSeen (Peer s)) (t2 - dt)) as [Hlt2|Hge2];
    destruct (Z.ltb_spec (LastSeen (Peer s)) (t1 - dt)) as [Hlt1|Hge1]; simpl;
    intros Hkeep; try discriminate Hkeep; try reflexivity; lia.
Qed.

Lemma last_in_list (l : list Z) (d : Z) : l <> [] -> In (List.last l d) l.
Proof.
  induction l as [|x l IH]; intros Hne; [congruence|].
  destruct l as [|y l]; [left; reflexivity|].
  right. apply IH. discriminate.
Qed.

(** What a run of the eviction loop leaves untouched. *)
Lemma dropLoop_frame (dt : Z) (envs : list TickEnv) :
  forall (ticker : Ticker) (w : World),
    crawlerDB (worldOf (dropDaemon_loop dt envs ticker w)) = crawlerDB w /\
    crawlerDBTx (worldOf (dropDaemon_loop dt envs ticker w)) = crawlerDBTx w /\
    nodeDB (worldOf (dropDaemon_loop dt envs ticker w)) ⊆ nodeDB w /\
    clock w <= clock (worldOf (dropDaemon_loop dt envs ticker w)) /\
    (forall now d err,
       In (EvDropOldNodes now d err) (traceOf (dropDaemon_loop dt envs ticker w)) ->
       d = dt).
Proof.
  induction envs as [|env rest IH]; intros ticker w.
  - unfold worldOf, traceOf. simpl. split_ands; try reflexivity; try lia;
      try (intros now d err Hin; contradiction Hin).
  - rewrite dropLoop_step.
    assert (HT : clock w <= tickTime ticker (clock w)) by (unfold tickTime; lia).
    destruct (DropErr env) as [e|].
    + project_run. simpl. split_ands; try reflexivity; try lia.
      intros now d err [H|[H|[]]]; [discriminate H | injection H as _ <- _; reflexivity].
    + specialize (IH (afterTick ticker (clock w))
                    (setClock (tickTime ticker (clock w) + Z.max 0 (DropElapsed env))
                       (setNodeDB
                          (deleteOlderThan (tickTime ticker (clock w)) dt (nodeDB w)) w))).
      destruct (dropDaemon_loop dt rest _ _) as [[fl w2] tr].
      unfold worldOf, traceOf in *. simpl in *.
      destruct IH as (Hc & Htx & Hdb & Hclk & Hd).
      split_ands; try assumption; try lia.
      * etransitivity; [exact Hdb | apply deleteOlderThan_subseteq].
      * intros now d err [H|[H|Hin]];
          [discriminate H | injection H as _ <- _; reflexivity | eauto].
Qed.

(** X13.  The eviction daemon never touches the transient store and
    never adds or alters a row of the serving store: after any run, failed
    deletes and the panic included, the crawler database and its
    transaction are as they were and every row of the serving store is a
    row it held at the start.  Every delete is called with the retention
    [dropDaemon] was given. *)
Theorem dropDaemon_frame (dt : Z) (envs : list TickEnv) (w : World) :
  crawlerDB (worldOf (dropDaemon dt envs w)) = crawlerDB w /\
  crawlerDBTx (worldOf (dropDaemon dt envs w)) = crawlerDBTx w /\
  nodeDB (worldOf (dropDaemon dt envs w)) ⊆ nodeDB w /\
  (forall now d err,
     In (EvDropOldNodes now d err) (traceOf (dropDaemon dt envs w)) -> d = dt).
Proof.
  destruct (dropLoop_frame dt envs
              {| Period := 10 * Duration.Minute;
                 NextFire := clock w + 10 * Duration.Minute |} w)
    as (Hc & Htx & Hdb & _ & Hd).
  destruct (dropDaemon_trace dt envs w) as (tail & Htail & Htr).
  split_ands.
  - rewrite dropDaemon_unfold.
    destruct (dropDaemon_loop dt envs _ w) as [[[tk|r|e|] w1] tr]; exact Hc.
  - rewrite dropDaemon_unfold.
    destruct (dropDaemon_loop dt envs _ w) as [[[tk|r|e|] w1] tr]; exact Htx.
  - rewrite dropDaemon_unfold.
    destruct (dropDaemon_loop dt envs _ w) as [[[tk|r|e|] w1] tr]; exact Hdb.
  - intros now d err Hin. rewrite Htr in Hin. simpl in Hin.
    destruct Hin as [H|Hin]; [discriminate H|].
    apply in_app_or in Hin. destruct Hin as [Hin|Hin]; [eauto|].
    destruct Htail as [-> | ->]; no_such_event Hin.
Qed.

(** With deletes that finish before the ticker fires again, the loop
    receives every tick when it fires. *)
Lemma dropLoop_on_schedule (dt : Z) (envs : list TickEnv) :
  forall (ticker : Ticker) (w : World),
    0 < Period ticker ->
    clock w < NextFire ticker ->
    Forall (fastDelete (Period ticker)) envs ->
    traceOf (dropDaemon_loop dt envs ticker w) =
      evictionTrace dt
        (map (fun i => NextFire ticker + Period ticker * Z.of_nat i)
             (seq 0 (length envs))) /\
    exists tk, flowOf (dropDaemon_loop dt envs ticker w) = Next tk.
Proof.
  induction envs as [|env rest IH]; intros ticker w Hp Hclk Hok.
  - split; [reflexivity | eexists; reflexivity].
  - inversion Hok as [|? ? [Herr Hfast] Hrest]; subst.
    rewrite dropLoop_step, Herr.
    assert (HT : tickTime ticker (clock w) = NextFire ticker)
      by (unfold tickTime; lia).
    assert (Hafter : afterTick ticker (clock w)
                     = {| Period := Period ticker;
                          NextFire := NextFire ticker + Period ticker |}).
    { unfold afterTick. destruct (Z.leb_spec (NextFire ticker) (clock w)); [lia|].
      reflexivity. }
    rewrite HT, Hafter.
    destruct (IH {| Period := Period ticker;
                    NextFire := NextFire ticker + Period ticker |}
                (setClock (NextFire ticker + Z.max 0 (DropElapsed env))
                   (setNodeDB (deleteOlderThan (NextFire ticker) dt (nodeDB w)) w)))
      as [Htr [tk Hfl]]; [exact Hp | simpl; lia | exact Hrest |].
    destruct (dropDaemon_loop dt rest _ _) as [[fl w2] tr].
    unfold traceOf, flowOf in *. cbn [fst snd] in *. subst fl.
    split; [|eexists; reflexivity].
    rewrite Htr. cbn [length seq map Period NextFire].
    rewrite <- seq_shift, List.map_map.
    change (Z.of_nat 0) with 0. rewrite Z.mul_0_r, Z.add_0_r.
    unfold evictionTrace. cbn [flat_map app]. do 3 f_equal.
    apply List.map_ext. intros i. rewrite Nat2Z.inj_succ. lia.
Qed.

(** X14.  While every delete succeeds and takes less than ten minutes,
    the eviction daemon runs on schedule: the n-th delete is issued exactly
    n times ten minutes after the start, however long the deletes before
    it took. *)
Theorem dropDaemon_on_schedule (dt : Z) (envs : list TickEnv) (w : World) :
  Forall (fastDelete (10 * Duration.Minute)) envs ->
  traceOf (dropDaemon dt envs w) =
    EvNewTicker (10 * Duration.Minute)
      :: evictionTrace dt (tickSchedule (clock w) (10 * Duration.Minute) (length envs)).
Proof.
  intros Hok.
  destruct (dropLoop_on_schedule dt envs
              {| Period := 10 * Duration.Minute;
                 NextFire := clock w + 10 * Duration.Minute |} w)
    as [Htr [tk Hfl]]; [reflexivity | simpl; rewrite Minute_value; lia | exact Hok |].
  rewrite dropDaemon_unfold.
  destruct (dropDaemon_loop dt envs _ w) as [[fl w1] tr].
  unfold traceOf, flowOf in *. cbn [fst snd] in *. subst fl tr.
  cbn [fst snd Period NextFire]. do 2 f_equal. unfold tickSchedule.
  apply List.map_ext. intros i. lia.
Qed.

Lemma dropDaemon_on_schedule_witness :
  Forall (fastDelete (10 * Duration.Minute)) [Sample.dropOk; Sample.dropOk] /\
  traceOf (dropDaemon (24 * 60 * Duration.Minute) [Sample.dropOk; Sample.dropOk]
             Sample.idle) =
    EvNewTicker (10 * Duration.Minute)
      :: evictionTrace (24 * 60 * Duration.Minute)
           [10 * Duration.Minute; 20 * Duration.Minute].
Proof.
  assert (Hok : Forall (fastDelete (10 * Duration.Minute))
                       [Sample.dropOk; Sample.dropOk]).
  { repeat constructor. }
  split; [exact Hok|].
  apply (dropDaemon_on_schedule (24 * 60 * Duration.Minute)
           [Sample.dropOk; Sample.dropOk] Sample.idle Hok).
Defined.

(** Successful eviction cycles add up to the last one. *)
Lemma dropLoop_evicts (dt : Z) (envs : list TickEnv) :
  forall (ticker : Ticker) (w : World),
    Forall (fun env => DropErr env = None) envs ->
    exists times,
      traceOf (dropDaemon_loop dt envs ticker w) = evictionTrace dt times /\
      length times = length envs /\
      Forall (fun t => clock w <= t) times /\
      (exists tk, flowOf (dropDaemon_loop dt envs ticker w) = Next tk) /\
      nodeDB (worldOf (dropDaemon_loop dt envs ticker w)) =
        match times with
        | [] => nodeDB w
        | _ :: _ => deleteOlderThan (List.last times 0) dt (nodeDB w)
        end.
Proof.
  induction envs as [|env rest IH]; intros ticker w Hok.
  - exists []. split_ands; try reflexivity; [constructor | eexists; reflexivity].
  - inversion Hok as [|? ? Henv Hrest]; subst.
    rewrite dropLoop_step, Henv.
    assert (HT : clock w <= tickTime ticker (clock w)) by (unfold tickTime; lia).
    set (T := tickTime ticker (clock w)) in *.
    destruct (IH (afterTick ticker (clock w))
                (setClock (T + Z.max 0 (DropElapsed env))
                   (setNodeDB (deleteOlderThan T dt (nodeDB w)) w)) Hrest)
      as (times & Htr & Hlen & Hall & [tk Hfl] & Hdb).
    destruct (dropDaemon_loop dt rest _ _) as [[fl w2] tr].
    unfold traceOf, flowOf, worldOf in *. cbn [fst snd] in *. subst fl tr.
    cbn [clock setClock nodeDB setNodeDB] in Hall, Hdb.
    exists (T :: times). split_ands.
    + reflexivity.
    + simpl. rewrite Hlen. reflexivity.
    + constructor; [exact HT|].
      eapply List.Forall_impl; [|exact Hall]. simpl. intros t Ht. lia.
    + eexists; reflexivity.
    + rewrite Hdb. destruct times as [|y l]; [reflexivity|].
      change (List.last (T :: y :: l) 0) with (List.last (y :: l) 0).
      apply deleteOlderThan_twice.
      assert (Hin : In (List.last (y :: l) 0) (y :: l)) by (apply last_in_list; discriminate).
      rewrite List.Forall_forall in Hall. specialize (Hall _ Hin).
      pose proof (Z.le_max_l 0 (DropElapsed env)). lia.
Qed.

(** X15.  Successful eviction cycles add up to the last one: after a run
    of one or more of them the serving store is what a single delete at the
    time of the last tick leaves of the store at the start, that is exactly
    the rows whose last-seen is no older than the retention at that time.
    An evicted row does not come back and a recent row is never dropped. *)
Theorem dropDaemon_evicts (dt : Z) (envs : list TickEnv) (w : World) :
  Forall (fun env => DropErr env = None) envs ->
  envs <> [] ->
  exists times,
    traceOf (dropDaemon dt envs w) =
      EvNewTicker (10 * Duration.Minute) :: evictionTrace dt times /\
    times <> [] /\
    nodeDB (worldOf (dropDaemon dt envs w)) =
      deleteOlderThan (List.last times 0) dt (nodeDB w) /\
    (forall k s,
       nodeDB (worldOf (dropDaemon dt envs w)) !! k = Some s <->
       nodeDB w !! k = Some s /\ List.last times 0 - dt <= LastSeen (Peer s)).
Proof.
  intros Hok Hne.
  destruct (dropLoop_evicts dt envs
              {| Period := 10 * Duration.Minute;
                 NextFire := clock w + 10 * Duration.Minute |} w Hok)
    as (times & Htr & Hlen & _ & [tk Hfl] & Hdb).
  exists times. rewrite dropDaemon_unfold.
  destruct (dropDaemon_loop dt envs _ w) as [[fl w1] tr].
  unfold traceOf, flowOf, worldOf in *. cbn [fst snd] in *. subst fl tr.
  cbn [fst snd].
  destruct times as [|y l].
  { destruct envs; [congruence | discriminate Hlen]. }
  split_ands.
  - reflexivity.
  - discriminate.
  - exact Hdb.
  - intros k s. rewrite Hdb. apply deleteOlderThan_lookup.
Qed.

Lemma dropDaemon_evicts_witness :
  (Forall (fun env => DropErr env = None) [Sample.dropOk; Sample.dropSlow] /\
   [Sample.dropOk; Sample.dropSlow] <> []) /\
  exists times,
    traceOf (dropDaemon 5 [Sample.dropOk; Sample.dropSlow] Fixtures.served) =
      EvNewTicker (10 * Duration.Minute) :: evictionTrace 5 times /\
    times <> [] /\
    nodeDB (worldOf (dropDaemon 5 [Sample.dropOk; Sample.dropSlow] Fixtures.served)) =
      deleteOlderThan (List.last times 0) 5 (nodeDB Fixtures.served).
Proof.
  assert (Hok : Forall (fun env => DropErr env = None)
                       [Sample.dropOk; Sample.dropSlow]).
  { repeat constructor. }
  assert (Hne : [Sample.dropOk; Sample.dropSlow] <> []) by discriminate.
  split; [split; [exact Hok | exact Hne]|].
  destruct (dropDaemon_evicts 5 [Sample.dropOk; Sample.dropSlow] Fixtures.served
              Hok Hne) as (times & Htr & Ht & Hdb & _).
  exists times. split_ands; assumption.
Defined.

(* ===================================================================== *)
(** ** The daemon, cycle after cycle                                     *)
(* ===================================================================== *)

(** A run over [a ++ b] is the run over [a] followed by the run over [b]
    from the timer and the world the first one ends with. *)
Lemma loop_app (a b : list CycleEnv) :
  forall (t : Z) (w : World),
  exists t1,
    flowOf (newNodeDaemon_loop a t w) = Next t1 /\
    newNodeDaemon_loop (a ++ b) t w =
      (flowOf (newNodeDaemon_loop b t1 (worldOf (newNodeDaemon_loop a t w))),
       worldOf (newNodeDaemon_loop b t1 (worldOf (newNodeDaemon_loop a t w))),
       traceOf (newNodeDaemon_loop a t w)
       ++ traceOf (newNodeDaemon_loop b t1 (worldOf (newNodeDaemon_loop a t w)))).
Proof.
  induction a as [|env a IH]; intros t w.
  - exists t. split; [reflexivity|].
    change (worldOf (newNodeDaemon_loop [] t w)) with w.
    change (traceOf (newNodeDaemon_loop [] t w)) with (@nil Event).
    simpl app. destruct (newNodeDaemon_loop b t w) as [[fl w1] tr]. reflexivity.
  - destruct (loop_cons env (a ++ b) t w) as (t1 & Ht1 & Hab).
    destruct (loop_cons env a t w) as (t1' & Ht1' & Ha).
    rewrite Ht1 in Ht1'. injection Ht1' as <-.
    destruct (IH t1 (worldOf (newNodeDaemon_iter (CycleFaults env) t
                                (setCrawlerDB (crawlerDB w ++ Arrivals env) w))))
      as (t2 & Ht2 & Hsplit).
    exists t2. rewrite <- app_comm_cons, Hab, Ha, Hsplit. project_run.
    split; [exact Ht2|]. rewrite app_assoc. reflexivity.
Qed.

(** The daemon's run through [pre], one more cycle, and [rest]. *)
Lemma daemon_run_split (pre : list CycleEnv) (env : CycleEnv) (rest : list CycleEnv)
    (w0 : World) :
  exists t',
    flowOf (newNodeDaemon_iter (CycleFaults env) (timerAfter pre w0)
              (arrive env (worldAfter pre w0))) = Next t' /\
    timerAfter (pre ++ [env]) w0 = t' /\
    worldAfter (pre ++ [env]) w0 =
      worldOf (newNodeDaemon_iter (CycleFaults env) (timerAfter pre w0)
                 (arrive env (worldAfter pre w0))) /\
    traceOf (newNodeDaemon (pre ++ env :: rest) w0) =
      traceOf (newNodeDaemon pre w0)
      ++ traceOf (newNodeDaemon_iter (CycleFaults env) (timerAfter pre w0)
                    (arrive env (worldAfter pre w0)))
      ++ traceOf (newNodeDaemon_loop rest t'
                    (worldOf (newNodeDaemon_iter (CycleFaults env) (timerAfter pre w0)
                                (arrive env (worldAfter pre w0))))) /\
    worldOf (newNodeDaemon (pre ++ env :: rest) w0) =
      worldOf (newNodeDaemon_loop rest t'
                 (worldOf (newNodeDaemon_iter (CycleFaults env) (timerAfter pre w0)
                             (arrive env (worldAfter pre w0))))).
Proof.
  unfold worldAfter, timerAfter, arrive.
  destruct (newNodeDaemon_run pre w0) as [-> ->].
  destruct (newNodeDaemon_run (pre ++ env :: rest) w0) as [-> ->].
  destruct (newNodeDaemon_run (pre ++ [env]) w0) as [-> _].
  destruct (loop_app pre (env :: rest) Duration.Minute w0) as (t1 & Ht1 & Hall).
  destruct (loop_app pre [env] Duration.Minute w0) as (t1' & Ht1' & Hone).
  rewrite Ht1 in Ht1'. injection Ht1' as <-.
  rewrite Ht1, Hall, Hone. clear Hall Hone.
  set (w1 := worldOf (newNodeDaemon_loop pre Duration.Minute w0)).
  destruct (loop_cons env rest t1 w1) as (t' & Ht' & Hrest).
  destruct (loop_cons env [] t1 w1) as (t'' & Ht'' & Hlast).
  rewrite Ht' in Ht''. injection Ht'' as <-.
  rewrite Hrest, Hlast. project_run.
  exists t'. split_ands; try reflexivity. exact Ht'.
Qed.


(** The cycle after [pre], when [transferNewNodes] returns an error. *)
Lemma daemon_cycle_failed (pre : list CycleEnv) (env : CycleEnv)
    (rest : list CycleEnv) (w0 : World) (e : error) :
  flowOf (nextCycle pre env w0) = Return (Some e) ->
  timerAfter (pre ++ [env]) w0 = Duration.mul (timerAfter pre w0) 2 /\
  worldAfter (pre ++ [env]) w0 =
    setClock (clock (worldOf (nextCycle pre env w0)) + Z.max 0 (timerAfter pre w0))
      (worldOf (nextCycle pre env w0)) /\
  traceOf (newNodeDaemon (pre ++ env :: rest) w0) =
    traceOf (newNodeDaemon pre w0)
    ++ (traceOf (nextCycle pre env w0)
        ++ [EvLogError "Failure in transferring new nodes" e;
            EvSleep (timerAfter pre w0)])
    ++ traceOf (newNodeDaemon_loop rest (Duration.mul (timerAfter pre w0) 2)
                  (setClock (clock (worldOf (nextCycle pre env w0))
                             + Z.max 0 (timerAfter pre w0))
                     (worldOf (nextCycle pre env w0)))) /\
  worldOf (newNodeDaemon (pre ++ env :: rest) w0) =
    worldOf (newNodeDaemon_loop rest (Duration.mul (timerAfter pre w0) 2)
               (setClock (clock (worldOf (nextCycle pre env w0))
                          + Z.max 0 (timerAfter pre w0))
                  (worldOf (nextCycle pre env w0)))).
Proof.
  unfold nextCycle. intros He.
  destruct (daemon_run_split pre env rest w0) as (t' & Ht' & Htimer & Hworld & Htr & Hw).
  rewrite (iter_failed _ _ _ e He) in *. project_run.
  unfold flowOf in Ht'. simpl in Ht'. injection Ht' as <-.
  split_ands; assumption.
Qed.

(** The cycle after [pre], when [transferNewNodes] returns nil. *)
Lemma daemon_cycle_succeeded (pre : list CycleEnv) (env : CycleEnv)
    (rest : list CycleEnv) (w0 : World) :
  flowOf (nextCycle pre env w0) = Return None ->
  timerAfter (pre ++ [env]) w0 = Duration.Minute /\
  worldAfter (pre ++ [env]) w0 =
    setClock (clock (worldOf (nextCycle pre env w0)) + 1000000000)
      (worldOf (nextCycle pre env w0)) /\
  traceOf (newNodeDaemon (pre ++ env :: rest) w0) =
    traceOf (newNodeDaemon pre w0)
    ++ (traceOf (nextCycle pre env w0) ++ [EvSleep Duration.Second])
    ++ traceOf (newNodeDaemon_loop rest Duration.Minute
                  (setClock (clock (worldOf (nextCycle pre env w0)) + 1000000000)
                     (worldOf (nextCycle pre env w0)))) /\
  worldOf (newNodeDaemon (pre ++ env :: rest) w0) =
    worldOf (newNodeDaemon_loop rest Duration.Minute
               (setClock (clock (worldOf (nextCycle pre env w0)) + 1000000000)
                  (worldOf (nextCycle pre env w0)))).
Proof.
  unfold nextCycle. intros Hs.
  destruct (daemon_run_split pre env rest w0) as (t' & Ht' & Htimer & Hworld & Htr & Hw).
  rewrite (iter_succeeded _ _ _ Hs) in *. project_run.
  unfold flowOf in Ht'. simpl in Ht'. injection Ht' as <-.
  split_ands; assumption.
Qed.

(** C3, as amended.  The retry timer of [newNodeDaemon] starts at the
    base interval of one minute.  In the cycle that follows any cycles
    [pre], if [transferNewNodes] returns an error the daemon logs it, sleeps
    for the timer value it entered the cycle with, and enters the next
    cycle with that value multiplied by two in [time.Duration]'s int64
    arithmetic: exactly twice the value while it lies in [-2^62, 2^62),
    which from the base covers the first 27 consecutive failures.  If
    [transferNewNodes] returns nil the daemon sleeps one second and enters
    the next cycle with the timer at the base interval. *)
Theorem newNodeDaemon_backoff
    (pre : list CycleEnv) (env : CycleEnv) (rest : list CycleEnv) (w0 : World) :
  timerAfter [] w0 = Duration.Minute /\
  (forall e,
     flowOf (nextCycle pre env w0) = Return (Some e) ->
     traceOf (newNodeDaemon (pre ++ env :: rest) w0) =
       traceOf (newNodeDaemon pre w0)
       ++ (traceOf (nextCycle pre env w0)
           ++ [EvLogError "Failure in transferring new nodes" e;
               EvSleep (timerAfter pre w0)])
       ++ traceOf (newNodeDaemon_loop rest (timerAfter (pre ++ [env]) w0)
                     (worldAfter (pre ++ [env]) w0)) /\
     clock (worldAfter (pre ++ [env]) w0) =
       clock (worldOf (nextCycle pre env w0)) + Z.max 0 (timerAfter pre w0) /\
     timerAfter (pre ++ [env]) w0 = Duration.mul (timerAfter pre w0) 2 /\
     (- 2 ^ 62 <= timerAfter pre w0 < 2 ^ 62 ->
      timerAfter (pre ++ [env]) w0 = 2 * timerAfter pre w0)) /\
  (flowOf (nextCycle pre env w0) = Return None ->
     traceOf (newNodeDaemon (pre ++ env :: rest) w0) =
       traceOf (newNodeDaemon pre w0)
       ++ (traceOf (nextCycle pre env w0) ++ [EvSleep Duration.Second])
       ++ traceOf (newNodeDaemon_loop rest (timerAfter (pre ++ [env]) w0)
                     (worldAfter (pre ++ [env]) w0)) /\
     timerAfter (pre ++ [env]) w0 = Duration.Minute) /\
  (forall envs,
     consecutiveFailures envs Duration.Minute w0 ->
     (length envs <= 27)%nat ->
     timerAfter envs w0 = Duration.Minute * 2 ^ Z.of_nat (length envs)).
Proof.
  split_ands.
  - reflexivity.
  - intros e He.
    destruct (daemon_cycle_failed pre env rest w0 e He) as (Ht & Hw & Htr & _).
    rewrite Htr, Ht, Hw. split_ands; try reflexivity.
    intros Hrange. apply mul2_exact. exact Hrange.
  - intros Hs.
    destruct (daemon_cycle_succeeded pre env rest w0 Hs) as (Ht & Hw & Htr & _).
    rewrite Htr, Ht, Hw. split; reflexivity.
  - intros envs Hall Hlen. unfold timerAfter.
    rewrite (loop_consecutive_failures envs _ _ Hall).
    destruct (base_doublings (length envs) Hlen) as [Heq _]. exact Heq.
Qed.

(** C3, as stated, fails: the 28th consecutive failure does not double
    the timer of [2^27] minutes, it wraps it around. *)
Lemma timer_not_doubled_at_28th_failure : ~ timerAlwaysDoubles.
Proof.
  intros Hdbl.
  specialize (Hdbl (repeat Sample.failingCycle 27) Sample.failingCycle Sample.idle
                (Errorf "error starting transaction to read nodes" Sample.busy)).
  assert (Hfails : flowOf (nextCycle (repeat Sample.failingCycle 27)
                             Sample.failingCycle Sample.idle)
                   = Return (Some (Errorf "error starting transaction to read nodes"
                                     Sample.busy))).
  { vm_compute. reflexivity. }
  specialize (Hdbl Hfails). vm_compute in Hdbl. discriminate Hdbl.
Qed.

(** C5.  When [crawlerDB.Begin] answers an error in a cycle of the
    daemon, [transferNewNodes] returns it, wrapped, having made no other
    call: nothing is read and the world is as the cycle found it.  The
    daemon logs the error, sleeps for the timer value it entered the cycle
    with, and goes on with the cycles that follow, with the timer
    multiplied by two and both stores as they were; it neither returns nor
    panics. *)
Theorem transferNewNodes_begin_error
    (pre : list CycleEnv) (env : CycleEnv) (rest : list CycleEnv) (w0 : World)
    (err : error) :
  In (EvBegin (Some err)) (traceOf (nextCycle pre env w0)) ->
  nextCycle pre env w0 =
    (Return (Some (Errorf "error starting transaction to read nodes" err)),
     arrive env (worldAfter pre w0),
     [EvBegin (Some err)]) /\
  traceOf (newNodeDaemon (pre ++ env :: rest) w0) =
    traceOf (newNodeDaemon pre w0)
    ++ [EvBegin (Some err);
        EvLogError "Failure in transferring new nodes"
          (Errorf "error starting transaction to read nodes" err);
        EvSleep (timerAfter pre w0)]
    ++ traceOf (newNodeDaemon_loop rest (Duration.mul (timerAfter pre w0) 2)
                  (setClock (clock (worldAfter pre w0) + Z.max 0 (timerAfter pre w0))
                     (arrive env (worldAfter pre w0)))) /\
  worldOf (newNodeDaemon (pre ++ env :: rest) w0) =
    worldOf (newNodeDaemon_loop rest (Duration.mul (timerAfter pre w0) 2)
               (setClock (clock (worldAfter pre w0) + Z.max 0 (timerAfter pre w0))
                  (arrive env (worldAfter pre w0)))) /\
  timerAfter (pre ++ [env]) w0 = Duration.mul (timerAfter pre w0) 2 /\
  flowOf (newNodeDaemon (pre ++ env :: rest) w0) = Parked.
Proof.
  intros Hin.
  assert (Hcyc : nextCycle pre env w0 =
                 (Return (Some (Errorf "error starting transaction to read nodes" err)),
                  arrive env (worldAfter pre w0),
                  [EvBegin (Some err)])).
  { revert Hin. unfold nextCycle.
    transfer_cases (CycleFaults env) (arrive env (worldAfter pre w0));
      unfold traceOf; simpl; intros Hin; try (no_such_event Hin).
    destruct Hin as [H|[]]. injection H as <-. reflexivity. }
  assert (He : flowOf (nextCycle pre env w0)
               = Return (Some (Errorf "error starting transaction to read nodes" err)))
    by (rewrite Hcyc; reflexivity).
  destruct (daemon_cycle_failed pre env rest w0 _ He) as (Ht & _ & Htr & Hw).
  rewrite Hcyc in Htr, Hw.
  split_ands.
  - exact Hcyc.
  - exact Htr.
  - exact Hw.
  - exact Ht.
  - apply newNodeDaemon_never_exits.
Qed.

Lemma transferNewNodes_begin_error_witness :
  In (EvBegin (Some Sample.busy))
     (traceOf (nextCycle [Sample.failingCycle] Sample.failingCycle Sample.pending)) /\
  traceOf (newNodeDaemon ([Sample.failingCycle] ++ Sample.failingCycle
                            :: [Fixtures.quietCycle]) Sample.pending) =
    traceOf (newNodeDaemon [Sample.failingCycle] Sample.pending)
    ++ [EvBegin (Some Sample.busy);
        EvLogError "Failure in transferring new nodes"
          (Errorf "error starting transaction to read nodes" Sample.busy);
        EvSleep (timerAfter [Sample.failingCycle] Sample.pending)]
    ++ traceOf (newNodeDaemon_loop [Fixtures.quietCycle]
                  (Duration.mul (timerAfter [Sample.failingCycle] Sample.pending) 2)
                  (setClock (clock (worldAfter [Sample.failingCycle] Sample.pending)
                             + Z.max 0 (timerAfter [Sample.failingCycle] Sample.pending))
                     (arrive Sample.failingCycle
                        (worldAfter [Sample.failingCycle] Sample.pending)))).
Proof.
  assert (Hin : In (EvBegin (Some Sample.busy))
                   (traceOf (nextCycle [Sample.failingCycle] Sample.failingCycle
                               Sample.pending))).
  { left. reflexivity. }
  split; [exact Hin|].
  apply (transferNewNodes_begin_error [Sample.failingCycle] Sample.failingCycle
           [Fixtures.quietCycle] Sample.pending Sample.busy Hin).
Defined.

(** C7.  After a successful cycle of the daemon, the one with an empty
    batch included and whatever the timer was, [newNodeDaemon] sleeps one
    second (10^9 ns), which is the only sleep of that cycle, and goes on
    with the cycles that follow with the timer at the base interval of one
    minute. *)
Theorem newNodeDaemon_idle_cadence
    (pre : list CycleEnv) (env : CycleEnv) (rest : list CycleEnv) (w0 : World) :
  flowOf (nextCycle pre env w0) = Return None \/
  In (EvReadAndDeleteUnseenNodes (inl [])) (traceOf (nextCycle pre env w0)) ->
  traceOf (newNodeDaemon (pre ++ env :: rest) w0) =
    traceOf (newNodeDaemon pre w0)
    ++ (traceOf (nextCycle pre env w0) ++ [EvSleep Duration.Second])
    ++ traceOf (newNodeDaemon_loop rest Duration.Minute
                  (setClock (clock (worldOf (nextCycle pre env w0)) + 1000000000)
                     (worldOf (nextCycle pre env w0)))) /\
  worldOf (newNodeDaemon (pre ++ env :: rest) w0) =
    worldOf (newNodeDaemon_loop rest Duration.Minute
               (setClock (clock (worldOf (nextCycle pre env w0)) + 1000000000)
                  (worldOf (nextCycle pre env w0)))) /\
  timerAfter (pre ++ [env]) w0 = Duration.Minute /\
  Duration.Second = 1000000000 /\
  List.filter isSleep (traceOf (nextCycle pre env w0) ++ [EvSleep Duration.Second])
    = [EvSleep 1000000000].
Proof.
  intros Hs.
  assert (Hnil : flowOf (nextCycle pre env w0) = Return None).
  { destruct Hs as [Hs|Hs]; [exact Hs | apply transfer_empty_succeeds; exact Hs]. }
  destruct (daemon_cycle_succeeded pre env rest w0 Hnil) as (Ht & _ & Htr & Hw).
  split_ands; try assumption; try reflexivity.
  unfold nextCycle. rewrite List.filter_app, transfer_no_sleep. reflexivity.
Qed.

Lemma newNodeDaemon_idle_cadence_witness :
  (flowOf (nextCycle [Sample.failingCycle; Sample.failingCycle] Fixtures.quietCycle
             Sample.idle) = Return None \/
   In (EvReadAndDeleteUnseenNodes (inl []))
      (traceOf (nextCycle [Sample.failingCycle; Sample.failingCycle]
                  Fixtures.quietCycle Sample.idle))) /\
  timerAfter [Sample.failingCycle; Sample.failingCycle] Sample.idle
    = 4 * Duration.Minute /\
  timerAfter ([Sample.failingCycle; Sample.failingCycle] ++ [Fixtures.quietCycle])
    Sample.idle = Duration.Minute.
Proof.
  assert (Hs : flowOf (nextCycle [Sample.failingCycle; Sample.failingCycle]
                         Fixtures.quietCycle Sample.idle) = Return None \/
               In (EvReadAndDeleteUnseenNodes (inl []))
                  (traceOf (nextCycle [Sample.failingCycle; Sample.failingCycle]
                              Fixtures.quietCycle Sample.idle))).
  { left. reflexivity. }
  split; [exact Hs|]. split; [reflexivity|].
  apply (newNodeDaemon_idle_cadence [Sample.failingCycle; Sample.failingCycle]
           Fixtures.quietCycle [] Sample.idle Hs).
Defined.








(** A commit that fails behind a successful insert wedges the daemon: the
    cycle counts as a success, and the next cycle, which meets no fault of
    its own, is refused at [Begin] and backs off. *)
Example failed_commit_wedges_the_daemon :
  List.filter (fun ev => negb (isInsert ev))
    (traceOf (newNodeDaemon [Fixtures.commitFailCycle; Fixtures.quietCycle]
                Sample.pending))
  = [EvBegin None;
     EvReadAndDeleteUnseenNodes (inl [Sample.peerA; Sample.peerB]);
     EvLogInfo "Nodes inserted" 2;
     EvCommit (Some Sample.busy);
     EvRollback (Some ErrTxDone);
     EvSleep Duration.Second;
     EvBegin (Some errInTransaction);
     EvLogError "Failure in transferring new nodes"
       (Errorf "error starting transaction to read nodes" errInTransaction);
     EvSleep Duration.Minute].
Proof. vm_compute. reflexivity. Qed.
